(** * senaite.queue: producer side of the worksheet queue

    A shallow embedding of [senaite/queue/__init__.py] and of
    [senaite/queue/monkeys/content/worksheet.py], together with models of the
    dispatch engine components (task store, chunker, executor) that the
    specification describes. *)

From stdpp Require Import gmap strings list fin_maps sorting.

Local Open Scope Z_scope.

(** ** Python results: a value or a raised exception *)

Inductive exn :=
| KeyError (key : string)
| IndexError
| DuplicateTargetError
| UnknownTaskTypeError
| ChunkExecutionError (msg : string).

Inductive result (A : Type) :=
| Return (a : A)
| Raise (e : exn).
Arguments Return {A} a.
Arguments Raise {A} e.

#[global] Instance result_ret : MRet result := λ A a, Return a.
#[global] Instance result_bind : MBind result := λ A B k m,
  match m with
  | Return a => k a
  | Raise e => Raise e
  end.

(** [d[k]]: subscripting a dict raises [KeyError] on a missing key. *)
Definition getitem {V} (d : gmap string V) (k : string) : result V :=
  match d !! k with
  | Some v => Return v
  | None => Raise (KeyError k)
  end.

(** [k in d] *)
Definition contains {V} (d : gmap string V) (k : string) : bool :=
  bool_decide (is_Some (d !! k)).

(** [l.pop()]: removes and returns the last item, [IndexError] when empty. *)
Definition pop {A} (l : list A) : result (A * list A) :=
  match last l with
  | Some x => Return (x, take (length l - 1)%nat l)
  | None => Raise IndexError
  end.

(** ** senaite/queue/__init__.py *)
Module Queue.

(** A utility registered in the component registry.  [backend_reachable]
    records whether the store behind the utility can presently be
    contacted; it is a fact about the deployment, not something the
    registry lookup inspects. *)
Record Utility := {
  utility_name : string;
  backend_reachable : bool
}.

(** The component registry maps an interface to the utility registered
    for it: a [gmap string Utility]. *)

Definition IQueueDispatcher : string := "IQueueDispatcher".

(** [zope.component.queryUtility(interface)]: the utility or [None]. *)
Definition queryUtility (reg : gmap string Utility) (interface : string) : option Utility :=
  reg !! interface.

Definition get_queue_utility (reg : gmap string Utility) : option Utility :=
  queryUtility reg IQueueDispatcher.

Definition is_queue_enabled (reg : gmap string Utility) : bool :=
  match get_queue_utility reg with
  | None => false
  | Some _ => true
  end.

(** The dispatcher contract speaks of a backend that is configured and
    reachable: a utility is registered for the interface, and its backend
    answers. *)
Definition configured (reg : gmap string Utility) : Prop :=
  is_Some (reg !! IQueueDispatcher).

Definition reachable (reg : gmap string Utility) : Prop :=
  ∃ u, reg !! IQueueDispatcher = Some u ∧ backend_reachable u = true.

(** [CHUNK_SIZES] lives in [senaite.queue.config]; it is taken as a
    parameter here. *)
Definition get_chunk_size (CHUNK_SIZES : gmap string Z) (task_name : string)
  : result Z :=
  if contains CHUNK_SIZES task_name
  then getitem CHUNK_SIZES task_name
  else getitem CHUNK_SIZES "default".

Definition get_action_task_name (action : string) : string :=
  "task_action_" +:+ action.

Definition PRODUCT_NAME : string := "senaite.queue".

Definition PROFILE_ID : string := "profile-" +:+ PRODUCT_NAME +:+ ":default".

(** [Products.CMFCore.permissions.AddPortalContent] *)
Definition AddPortalContent : string := "Add portal content".

(** The arguments of one [ContentInit(kind, content_types=..., permission=...,
    extra_constructors=..., fti=...)]. *)
Record ContentInit (T C F : Type) := {
  kind : string;
  content_types : list T;
  permission : string;
  extra_constructors : list C;
  fti : list F
}.
Arguments kind {T C F} _.
Arguments content_types {T C F} _.
Arguments permission {T C F} _.
Arguments extra_constructors {T C F} _.
Arguments fti {T C F} _.

(** What [initialize] does to its surroundings. *)
Inductive InitEffect (T C F : Type) :=
| LoggerInfo (msg : string)
| ContentInit_initialize (init : ContentInit T C F).
Arguments LoggerInfo {T C F} msg.
Arguments ContentInit_initialize {T C F} init.

(** [initialize(context)].  [listTypes] and [process_types] belong to
    Archetypes and are parameters, as is the [portal_type] attribute of a
    content type. *)
Definition initialize {A T C F : Type} (listTypes : string → list A)
  (process_types : list A → string → list T * list C * list F)
  (portal_type : T → string) : list (InitEffect T C F) :=
  let types := listTypes PRODUCT_NAME in
  let '(content_types, constructors, ftis) := process_types types PRODUCT_NAME in
  let allTypes := zip content_types constructors in
  LoggerInfo "*** Initializing SENAITE QUEUE Customization package ***" ::
  ((λ '(atype, constructor),
      let kind := PRODUCT_NAME +:+ ": Add " +:+ portal_type atype in
      ContentInit_initialize
        {| kind := kind;
           content_types := [atype];
           permission := AddPortalContent;
           extra_constructors := [constructor];
           fti := ftis |}) <$> allTypes).

End Queue.

(** ** senaite/queue/monkeys/content/worksheet.py *)
Module Worksheet.

(** Python truthiness of the values the routine tests. *)
Definition truthy_slot (slot : option Z) : bool :=
  match slot with
  | Some z => bool_decide (z ≠ 0)
  | None => false
  end.

Definition truthy_uid (uid : option string) : bool :=
  match uid with
  | Some s => bool_decide (s ≠ "")
  | None => false
  end.

Definition uid_or_empty (uid : option string) : string := default "" uid.

Record WorksheetTemplate := {
  getService : list string;
  getRawInstrument : option string;
  getRawRestrictToMethod : option string
}.

(** What the worksheet is asked to do: [self.addAnalysis(analysis, position)]
    and [api.queue_assign_analyses(self, analyses, ws_template)]. *)
Inductive Call (Obj : Type) :=
| AddAnalysis (analysis : Obj) (position : option Z)
| QueueAssignAnalyses (analyses : list Obj) (ws_template : option WorksheetTemplate).
Arguments AddAnalysis {Obj} analysis position.
Arguments QueueAssignAnalyses {Obj} analyses ws_template.

(** The collaborators of the two patched worksheet methods: catalog, queue
    api, the worksheet itself ([self]) and the analyses' own methods. *)
Record Portal (Brain Obj : Type) := {
  (* bika_analysis_catalog, queried for the template's service uids *)
  bac : list string → list Brain;
  (* senaite.queue.api *)
  api_is_queued : Brain → bool;
  api_is_queue_enabled : string → bool;
  (* bika.lims.api *)
  get_object : Brain → Obj;
  (* brain metadata *)
  getRequestID : Brain → string;
  (* analysis methods *)
  isInstrumentAllowed : Obj → string → bool;
  isMethodAllowed : Obj → string → bool;
  IRequestAnalysis_providedBy : Obj → bool;
  (* self *)
  resolve_available_slots : WorksheetTemplate → list Z;
  get_routine_analyses : list Obj;
  (* self.get_slot_position(obj.getRequest()) *)
  get_slot_position : Obj → option Z
}.
Arguments bac {Brain Obj} _ _.
Arguments api_is_queued {Brain Obj} _ _.
Arguments api_is_queue_enabled {Brain Obj} _ _.
Arguments get_object {Brain Obj} _ _.
Arguments getRequestID {Brain Obj} _ _.
Arguments isInstrumentAllowed {Brain Obj} _ _ _.
Arguments isMethodAllowed {Brain Obj} _ _ _.
Arguments IRequestAnalysis_providedBy {Brain Obj} _ _.
Arguments resolve_available_slots {Brain Obj} _ _.
Arguments get_routine_analyses {Brain Obj} _.
Arguments get_slot_position {Brain Obj} _ _.

(** [sorted(..., reverse=True)] on slot numbers and [sorted(...)] on ids. *)
Definition sort_reverse (l : list Z) : list Z := merge_sort Z.ge l.

Definition string_le (a b : string) : Prop := String.leb a b = true.
#[global] Instance string_le_dec a b : Decision (string_le a b).
Proof. unfold string_le. apply _. Defined.

Definition sorted_ids (l : list string) : list string := merge_sort string_le l.

(** [d.keys()] and [d.values()] *)
Definition keys {V} (d : gmap string V) : list string := (map_to_list d).*1.
Definition values {V} (d : gmap string V) : list V := (map_to_list d).*2.

Section routine.
Context {Brain Obj : Type} (portal : Portal Brain Obj).

(** The dictionaries and the slot stack of the grouping loop. *)
Record Groups := {
  available_slots : list Z;
  ar_analyses : gmap string (list Obj);
  ar_slots : gmap string Z;
  ar_fixed_slots : gmap string Z
}.

(** [if arid not in ar_analyses: ar_analyses[arid] = list()] followed by
    [ar_analyses[arid].append(obj)]. *)
Definition append_analysis (arid : string) (obj : Obj)
  (d : gmap string (list Obj)) : gmap string (list Obj) :=
  <[arid := default [] (d !! arid) ++ [obj]]> d.

(** How an iteration of a [for] loop ends. *)
Inductive Flow := Next (g : Groups) | Break (g : Groups).

(** [ar_slots[arid] = slot] and the append that ends the loop body. *)
Definition assign_slot (arid : string) (obj : Obj) (slot : Z)
  (avail : list Z) (g : Groups) : Groups :=
  {| available_slots := avail;
     ar_analyses := append_analysis arid obj (ar_analyses g);
     ar_slots := <[arid := slot]> (ar_slots g);
     ar_fixed_slots := ar_fixed_slots g |}.

(** The body of [for brain in analyses] (lines 80-139). *)
Definition group_brain (instrument method : option string)
  (num_routine_analyses : nat) (brain : Brain) (g : Groups) : result Flow :=
  if api_is_queued portal brain then Return (Next g) else
  let obj := get_object portal brain in
  let arid := getRequestID portal brain in
  if truthy_uid instrument
     && negb (isInstrumentAllowed portal obj (uid_or_empty instrument))
  then Return (Next g) else
  if truthy_uid method
     && negb (isMethodAllowed portal obj (uid_or_empty method))
  then Return (Next g) else
  let slot := ar_slots g !! arid in
  if negb (truthy_slot slot) then
    if bool_decide (length (available_slots g) = 0%nat)
       && bool_decide (num_routine_analyses = 0%nat)
    then Return (Break g)
    else if bool_decide (num_routine_analyses = 0%nat) then
      '(slot, avail) ← pop (available_slots g);
      Return (Next (assign_slot arid obj slot avail g))
    else
      let slot := get_slot_position portal obj in
      if truthy_slot slot then
        Return (Next
          {| available_slots := available_slots g;
             ar_analyses := append_analysis arid obj (ar_analyses g);
             ar_slots := ar_slots g;
             ar_fixed_slots := <[arid := default 0 slot]> (ar_fixed_slots g) |})
      else if bool_decide (length (available_slots g) = 0%nat) then
        Return (Next g)
      else
        '(slot, avail) ← pop (available_slots g);
        Return (Next (assign_slot arid obj slot avail g))
  else
    Return (Next (assign_slot arid obj (default 0 slot) (available_slots g) g)).

Fixpoint group_analyses (instrument method : option string)
  (num_routine_analyses : nat) (analyses : list Brain) (g : Groups)
  : result Groups :=
  match analyses with
  | [] => Return g
  | brain :: rest =>
      flow ← group_brain instrument method num_routine_analyses brain g;
      match flow with
      | Next g' => group_analyses instrument method num_routine_analyses rest g'
      | Break g' => Return g'
      end
  end.

(** The worksheet's pending calls and the [to_queue] list. *)
Record Effects := {
  calls : list (Call Obj);
  to_queue : list Obj
}.

(** The body of [for ar_an in ar_ans] (lines 158-168). *)
Definition add_analysis (queue_enabled : bool) (slot : Z) (ar_an : Obj)
  (e : Effects) : Effects :=
  if negb (IRequestAnalysis_providedBy portal ar_an) then
    {| calls := calls e ++ [AddAnalysis ar_an (Some slot)];
       to_queue := to_queue e |}
  else if negb queue_enabled then
    {| calls := calls e ++ [AddAnalysis ar_an (Some slot)];
       to_queue := to_queue e |}
  else
    {| calls := calls e; to_queue := to_queue e ++ [ar_an] |}.

(** [for ar_id in sorted_ar_ids] (lines 153-168). *)
Fixpoint add_regular (queue_enabled : bool) (g : Groups)
  (ar_ids : list string) (slots : list Z) (e : Effects) : result Effects :=
  match ar_ids with
  | [] => Return e
  | ar_id :: rest =>
      let fixed := ar_fixed_slots g !! ar_id in
      '(slot, slots') ←
        (if negb (truthy_slot fixed) then pop slots
         else Return (default 0 fixed, slots));
      ar_ans ← getitem (ar_analyses g) ar_id;
      add_regular queue_enabled g rest slots'
        (foldl (λ e ar_an, add_analysis queue_enabled slot ar_an e) e ar_ans)
  end.

(** [if to_queue: api.queue_assign_analyses(self, to_queue, ...)] *)
Definition flush_queue (ws_template : option WorksheetTemplate) (e : Effects)
  : list (Call Obj) :=
  match to_queue e with
  | [] => calls e
  | _ :: _ => calls e ++ [QueueAssignAnalyses (to_queue e) ws_template]
  end.

Definition empty_groups (avail : list Z) : Groups :=
  {| available_slots := avail; ar_analyses := ∅; ar_slots := ∅;
     ar_fixed_slots := ∅ |}.

(** The grouping the routine computes before it adds anything
    (lines 41-139); [None] when the catalog returned nothing. *)
Definition routine_groups (wst : WorksheetTemplate) : result (option Groups) :=
  let analyses := bac portal (getService wst) in
  match analyses with
  | [] => Return None
  | _ :: _ =>
      let available_slots := sort_reverse (resolve_available_slots portal wst) in
      let instrument := getRawInstrument wst in
      let method := getRawRestrictToMethod wst in
      let num_routine_analyses := length (get_routine_analyses portal) in
      g ← group_analyses instrument method num_routine_analyses analyses
            (empty_groups available_slots);
      Return (Some g)
  end.

(** [_apply_worksheet_template_routine_analyses(self, wst)]: the calls made
    on the worksheet and on the queue api, in order. *)
Definition _apply_worksheet_template_routine_analyses
  (wst : WorksheetTemplate) : result (list (Call Obj)) :=
  og ← routine_groups wst;
  match og with
  | None => Return []
  | Some g =>
      let sorted_ar_ids := sorted_ids (keys (ar_analyses g)) in
      let slots := sort_reverse (values (ar_slots g)) in
      let queue_enabled := api_is_queue_enabled portal "task_assign_analyses" in
      e ← add_regular queue_enabled g sorted_ar_ids slots
            {| calls := []; to_queue := [] |};
      Return (flush_queue (Some wst) e)
  end.

(** The body of [for num, analysis in enumerate(analyses)] (lines 188-195). *)
Definition add_one (queue_enabled : bool) (e : Effects) (analysis : Brain)
  : Effects :=
  let analysis := get_object portal analysis in
  if negb queue_enabled then
    {| calls := calls e ++ [AddAnalysis analysis None];
       to_queue := to_queue e |}
  else if negb (IRequestAnalysis_providedBy portal analysis) then
    {| calls := calls e ++ [AddAnalysis analysis None];
       to_queue := to_queue e |}
  else
    {| calls := calls e; to_queue := to_queue e ++ [analysis] |}.

(** [addAnalyses(self, analyses)] *)
Definition addAnalyses (analyses : list Brain) : list (Call Obj) :=
  let queue_enabled := api_is_queue_enabled portal "task_assign_analyses" in
  flush_queue None
    (foldl (add_one queue_enabled) {| calls := []; to_queue := [] |} analyses).

End routine.

End Worksheet.

(** ** The dispatch engine

    The task store, chunker and executor are not part of the two modules
    above, which only call into them; they are modelled here from their
    contracts. *)
Module Engine.

(** Work items and target references are opaque identifiers. *)
Definition Item := string.

(** *** Chunker *)

(** Modelled from the spec: the Chunker's [split(items, chunk_size)] is not
    in the sources.  It cuts [items] from the front into consecutive chunks
    of [chunk_size] items, the last one possibly shorter.  [fuel] bounds the
    number of chunks. *)
Fixpoint split_upto (fuel : nat) (items : list Item) (chunk_size : nat)
  : list (list Item) :=
  match fuel, items with
  | O, _ => []
  | _, [] => []
  | S fuel', _ :: _ =>
      take chunk_size items :: split_upto fuel' (drop chunk_size items) chunk_size
  end.

Definition split (items : list Item) (chunk_size : nat) : list (list Item) :=
  split_upto (length items) items chunk_size.

(** *** Executor *)

Record ExecutionResult := {
  applied_count : nat;
  remaining : list Item;
  error : option exn
}.

(** A registered handler, [run(target_ref, chunk)]: it reports what it
    applied, or faults. *)
Definition Handler := string → list Item → result ExecutionResult.

(** [try: body except e: handler(e)] *)
Definition try_except {A} (body : result A) (handler : exn → result A)
  : result A :=
  match body with
  | Return a => Return a
  | Raise e => handler e
  end.

Inductive Status := queued | running | done | failed | retry_pending.

Record Task := {
  id : nat;
  name : string;
  target_ref : string;
  payload : list Item;
  chunk_size : Z;
  status : Status;
  attempts : nat
}.

(** Modelled from the spec: the Executor's [run(task, chunk)] is not in the
    sources.  It calls the handler registered for the task's name on the
    task's target and the chunk; a fault (of the handler, or of looking it
    up) is caught and reported in the [error] field, with nothing counted as
    applied and the whole chunk remaining. *)
Definition run (handlers : gmap string Handler) (task : Task)
  (chunk : list Item) : result ExecutionResult :=
  try_except
    (handler ← match handlers !! name task with
               | Some h => Return h
               | None => Raise UnknownTaskTypeError
               end;
     handler (target_ref task) chunk)
    (λ e, Return {| applied_count := 0; remaining := chunk; error := Some e |}).

(** *** Task store, deduplication index and dispatcher *)

Definition is_active (s : Status) : bool :=
  match s with
  | queued | running | retry_pending => true
  | done | failed => false
  end.

(** Whether a second submission for a locked target is merged or refused. *)
Inductive Policy := Merge | Reject.

Record Store := {
  tasks : gmap nat Task;
  dedup : gmap string nat
}.

Definition empty_store : Store := {| tasks := ∅; dedup := ∅ |}.

(** Modelled from the spec: the Dispatcher's [is_queued(target_ref)], a
    lookup in the deduplication index. *)
Definition is_queued (st : Store) (target : string) : bool :=
  bool_decide (is_Some (dedup st !! target)).

Definition extend_payload (items : list Item) (t : Task) : Task :=
  {| id := id t; name := name t; target_ref := target_ref t;
     payload := payload t ++ items; chunk_size := chunk_size t;
     status := status t; attempts := attempts t |}.

Definition new_task (tid : nat) (task_name target : string)
  (items : list Item) (size : Z) : Task :=
  {| id := tid; name := task_name; target_ref := target; payload := items;
     chunk_size := size; status := queued; attempts := 0 |}.

(** Modelled from the spec: the Dispatcher's
    [submit(name, target_ref, items, chunk_size=None)] is not in the
    sources.  A name without a handler fails with [UnknownTaskTypeError];
    a target that the deduplication index holds for an active task is
    merged into that task's payload or refused with [DuplicateTargetError],
    by [policy]; otherwise a [queued] task is created under a fresh id, its
    chunk size resolved by [get_chunk_size] unless given, and the target is
    locked.  The result and the store afterwards are returned. *)
Definition submit (policy : Policy) (CHUNK_SIZES : gmap string Z)
  (handlers : gmap string Handler) (st : Store) (task_name target : string)
  (items : list Item) (size : option Z) : result nat * Store :=
  if negb (contains handlers task_name) then (Raise UnknownTaskTypeError, st)
  else
    match dedup st !! target with
    | Some holder =>
        match policy with
        | Reject => (Raise DuplicateTargetError, st)
        | Merge =>
            (Return holder,
             {| tasks := alter (extend_payload items) holder (tasks st);
                dedup := dedup st |})
        end
    | None =>
        match from_option Return (Queue.get_chunk_size CHUNK_SIZES task_name) size with
        | Raise e => (Raise e, st)
        | Return n =>
            let tid := fresh (dom (tasks st)) in
            (Return tid,
             {| tasks := <[tid := new_task tid task_name target items n]> (tasks st);
                dedup := <[target := tid]> (dedup st) |})
        end
    end.

(** Modelled from the spec: the edges of the Lifecycle Controller's state
    machine, [queued → running → {done, retry_pending, failed}],
    [retry_pending → running] or [→ failed], and the external abort of a
    task that is between chunks. *)
Definition legal (from to : Status) : bool :=
  match from, to with
  | queued, running
  | running, done | running, retry_pending | running, failed
  | retry_pending, running | retry_pending, failed
  | queued, failed => true
  | _, _ => false
  end.

Definition moved (to : Status) (rest : list Item) (t : Task) : Task :=
  {| id := id t; name := name t; target_ref := target_ref t;
     payload := rest; chunk_size := chunk_size t;
     status := to;
     attempts := match to with retry_pending => S (attempts t) | _ => attempts t end |}.

(** A task is [done] only once its payload is empty. *)
Definition payload_allows (to : Status) (rest : list Item) : bool :=
  match to, rest with
  | done, _ :: _ => false
  | _, _ => true
  end.

(** Modelled from the spec: one transition of the Lifecycle Controller on
    task [tid], to status [to] with [rest] as the payload left.  Only legal
    edges are taken, [done] only with an empty payload; reaching [done] or
    [failed] releases the target's entry in the deduplication index.
    Anything else leaves the store as it is. *)
Definition transition (tid : nat) (to : Status) (rest : list Item)
  (st : Store) : Store :=
  match tasks st !! tid with
  | None => st
  | Some t =>
      if legal (status t) to && payload_allows to rest
      then
        {| tasks := <[tid := moved to rest t]> (tasks st);
           dedup := if is_active to then dedup st
                    else delete (target_ref t) (dedup st) |}
      else st
  end.

(** What producers and workers do to the store, one atomic operation at a
    time; concurrent activity is an interleaving of these. *)
Inductive Op :=
| Submit (task_name target : string) (items : list Item) (size : option Z)
| Transition (tid : nat) (to : Status) (rest : list Item).

Section engine.
Context (policy : Policy) (CHUNK_SIZES : gmap string Z)
  (handlers : gmap string Handler).

Definition apply_op (st : Store) (op : Op) : Store :=
  match op with
  | Submit task_name target items size =>
      (submit policy CHUNK_SIZES handlers st task_name target items size).2
  | Transition tid to rest => transition tid to rest st
  end.

(** The store after a history of operations, from the empty store. *)
Definition after (history : list Op) : Store :=
  foldl apply_op empty_store history.

End engine.

End Engine.

(** ** The dispatcher and the queue api of the producers

    [Engine.submit] and [Engine.is_queued] say what an operation does to the
    store of a dispatcher that is enabled.  The dispatcher's own operations
    stand behind [is_enabled]. *)
Module Dispatcher.

(** The dispatcher's [is_enabled()] is [is_queue_enabled] of
    [senaite/queue/__init__.py]. *)
Definition is_enabled (reg : gmap string Queue.Utility) : bool :=
  Queue.is_queue_enabled reg.

(** Modelled from the spec: the Dispatcher's operations are not in the
    sources.  Its contract makes every operation other than [is_enabled] a
    no-op when the queue is disabled: the operation is not carried out, the
    store stays as it is and the caller gets [noop]. *)
Definition guarded {A} (reg : gmap string Queue.Utility) (noop : A)
  (operation : Engine.Store → A * Engine.Store) (st : Engine.Store)
  : A * Engine.Store :=
  if is_enabled reg then operation st else (noop, st).

(** Modelled from the spec: the Dispatcher's [submit], not in the sources:
    [Engine.submit] behind [is_enabled]; a disabled dispatcher hands out no
    task id. *)
Definition submit (reg : gmap string Queue.Utility) (policy : Engine.Policy)
  (CHUNK_SIZES : gmap string Z) (handlers : gmap string Engine.Handler)
  (st : Engine.Store) (task_name target : string) (items : list Engine.Item)
  (size : option Z) : option (result nat) * Engine.Store :=
  guarded reg None
    (λ st, let '(r, st') := Engine.submit policy CHUNK_SIZES handlers st
                              task_name target items size in
           (Some r, st'))
    st.

(** Modelled from the spec: the Dispatcher's [is_queued(target_ref)], not
    in the sources: the lookup in the deduplication index behind
    [is_enabled]. *)
Definition is_queued (reg : gmap string Queue.Utility) (st : Engine.Store)
  (target : string) : bool :=
  (guarded reg false (λ st, (Engine.is_queued st target, st)) st).1.

(** Modelled from the spec: the Dispatcher's [next_runnable()], not in the
    sources.  How a ready task is selected (age, backoff, locks) is the
    parameter [select]; the selection stands behind [is_enabled]. *)
Definition next_runnable (reg : gmap string Queue.Utility)
  (select : Engine.Store → option nat) (st : Engine.Store) : option nat :=
  (guarded reg None (λ st, (select st, st)) st).1.

(** Modelled from the spec: an operation on the store, a submission or a
    transition of the Lifecycle Controller, behind [is_enabled]. *)
Definition apply_op (reg : gmap string Queue.Utility) (policy : Engine.Policy)
  (CHUNK_SIZES : gmap string Z) (handlers : gmap string Engine.Handler)
  (st : Engine.Store) (op : Engine.Op) : Engine.Store :=
  (guarded reg () (λ st, ((), Engine.apply_op policy CHUNK_SIZES handlers st op))
     st).2.

(** Modelled from the spec: [senaite.queue.api] is not in the sources.  The
    producer interface's [is_queue_enabled(task_name)] is the dispatcher's
    [is_enabled]. *)
Definition api_is_queue_enabled (reg : gmap string Queue.Utility)
  (task_name : string) : bool :=
  is_enabled reg.

(** Modelled from the spec: [senaite.queue.api] is not in the sources.  The
    producer interface's [is_queued(target_ref)] is the dispatcher's
    [is_queued]. *)
Definition api_is_queued (reg : gmap string Queue.Utility)
  (st : Engine.Store) (target : string) : bool :=
  is_queued reg st target.

(** The collaborators of the worksheet methods with the queue api of this
    dispatcher in place of [site]'s; [get_uid] names the target of a
    brain. *)
Definition with_queue_api {Brain Obj : Type} (reg : gmap string Queue.Utility)
  (st : Engine.Store) (get_uid : Brain → string)
  (site : Worksheet.Portal Brain Obj) : Worksheet.Portal Brain Obj :=
  {| Worksheet.bac := Worksheet.bac site;
     Worksheet.api_is_queued := λ brain, api_is_queued reg st (get_uid brain);
     Worksheet.api_is_queue_enabled := api_is_queue_enabled reg;
     Worksheet.get_object := Worksheet.get_object site;
     Worksheet.getRequestID := Worksheet.getRequestID site;
     Worksheet.isInstrumentAllowed := Worksheet.isInstrumentAllowed site;
     Worksheet.isMethodAllowed := Worksheet.isMethodAllowed site;
     Worksheet.IRequestAnalysis_providedBy :=
       Worksheet.IRequestAnalysis_providedBy site;
     Worksheet.resolve_available_slots := Worksheet.resolve_available_slots site;
     Worksheet.get_routine_analyses := Worksheet.get_routine_analyses site;
     Worksheet.get_slot_position := Worksheet.get_slot_position site |}.

End Dispatcher.

(** ** Sample data *)
Module Sample.

(** A catalog whose brains and objects are named by their uid; the first
    character of a uid is the analysis request it belongs to.  ["b1"] is
    claimed by a task in flight, ["c1"] is a reference analysis. *)
Definition portal (catalog : list string) (queue_enabled : bool)
  : Worksheet.Portal string string :=
  {| Worksheet.bac := λ _, catalog;
     Worksheet.api_is_queued := λ b, bool_decide (b = "b1");
     Worksheet.api_is_queue_enabled := λ _, queue_enabled;
     Worksheet.get_object := λ b, b;
     Worksheet.getRequestID := λ b, String.substring 0 1 b;
     Worksheet.isInstrumentAllowed := λ _ _, true;
     Worksheet.isMethodAllowed := λ _ _, true;
     Worksheet.IRequestAnalysis_providedBy := λ o, negb (bool_decide (o = "c1"));
     Worksheet.resolve_available_slots := λ _, [1; 2; 3];
     Worksheet.get_routine_analyses := [];
     Worksheet.get_slot_position := λ _, None |}.

Definition catalog : list string := ["a1"; "b1"; "a2"; "c1"].

Definition wst : Worksheet.WorksheetTemplate :=
  {| Worksheet.getService := ["service-1"];
     Worksheet.getRawInstrument := None;
     Worksheet.getRawRestrictToMethod := None |}.

Definition CHUNK_SIZES : gmap string Z :=
  {[ "default" := 10; "task_assign_analyses" := 5 ]}.

(** A registry with a dispatcher whose backend does not answer. *)
Definition unreachable_registry : gmap string Queue.Utility :=
  {[ Queue.IQueueDispatcher :=
       {| Queue.utility_name := "queue"; Queue.backend_reachable := false |} ]}.

(** A handler that applies everything but faults on an empty chunk. *)
Definition assign_handler : Engine.Handler := λ _ chunk,
  match chunk with
  | [] => Raise (ChunkExecutionError "nothing to assign")
  | _ :: _ =>
      Return {| Engine.applied_count := length chunk;
                Engine.remaining := [];
                Engine.error := None |}
  end.

Definition handlers : gmap string Engine.Handler :=
  {[ "task_assign_analyses" := assign_handler ]}.

Definition history : list Engine.Op :=
  [Engine.Submit "task_assign_analyses" "worksheet-1" ["a1"; "a2"] None].

(** The groups the routine forms from the sample catalog. *)
Definition groups : @Worksheet.Groups string :=
  {| Worksheet.available_slots := [3];
     Worksheet.ar_analyses := {[ "a" := ["a1"; "a2"]; "c" := ["c1"] ]};
     Worksheet.ar_slots := {[ "a" := 1; "c" := 2 ]};
     Worksheet.ar_fixed_slots := ∅ |}.

End Sample.

(** * Properties *)

(** ** Results and dictionaries *)

Lemma getitem_Some {V} (d : gmap string V) k v :
  d !! k = Some v → getitem d k = Return v.
Proof. unfold getitem. by intros ->. Qed.

Lemma contains_true {V} (d : gmap string V) k :
  contains d k = true ↔ is_Some (d !! k).
Proof. unfold contains. by rewrite bool_decide_eq_true. Qed.

Lemma contains_false {V} (d : gmap string V) k :
  contains d k = false ↔ d !! k = None.
Proof.
  unfold contains. rewrite bool_decide_eq_false. symmetry.
  apply eq_None_not_Some.
Qed.

Lemma pop_nonempty {A} (l : list A) :
  l ≠ [] → ∃ x l', pop l = Return (x, l') ∧ length l = S (length l').
Proof.
  intros Hl. destruct (last l) as [x|] eqn:Hlast.
  - exists x, (take (length l - 1)%nat l). unfold pop. rewrite Hlast.
    split; [done|]. rewrite length_take.
    destruct l; [done|]. simpl. lia.
  - by apply last_None in Hlast.
Qed.

Lemma pop_length {A} (l l' : list A) x :
  pop l = Return (x, l') → length l = S (length l').
Proof.
  intros Hpop. destruct (decide (l = [])) as [->|Hne]; [done|].
  destruct (pop_nonempty l Hne) as (y & l2 & Hy & Hlen). congruence.
Qed.

Lemma filter_all {A} (P : A → Prop) `{∀ x, Decision (P x)} (l : list A) :
  (∀ x, P x) → filter P l = l.
Proof.
  intros HP. induction l as [|x l IH]; [done|].
  rewrite filter_cons_True by done. by rewrite IH.
Qed.

Lemma filter_none {A} (P : A → Prop) `{∀ x, Decision (P x)} (l : list A) :
  (∀ x, ¬ P x) → filter P l = [].
Proof.
  intros HP. induction l as [|x l IH]; [done|].
  by rewrite filter_cons_False.
Qed.

(** ** senaite/queue/__init__.py *)

Section chunk_sizes.
Context (CHUNK_SIZES : gmap string Z).

(** C3: [get_chunk_size] returns the value mapped to the exact task name
    when the configuration has such an entry, and otherwise what the key
    ["default"] is mapped to. *)
Theorem get_chunk_size_resolution (task_name : string) :
  (∀ v, CHUNK_SIZES !! task_name = Some v →
        Queue.get_chunk_size CHUNK_SIZES task_name = Return v) ∧
  (CHUNK_SIZES !! task_name = None →
   Queue.get_chunk_size CHUNK_SIZES task_name = getitem CHUNK_SIZES "default" ∧
   ∀ d, CHUNK_SIZES !! "default" = Some d →
        Queue.get_chunk_size CHUNK_SIZES task_name = Return d).
Proof.
  unfold Queue.get_chunk_size. split.
  - intros v Hv.
    assert (contains CHUNK_SIZES task_name = true) as ->
      by (apply contains_true; eauto).
    by apply getitem_Some.
  - intros Hnone.
    assert (contains CHUNK_SIZES task_name = false) as ->
      by by apply contains_false.
    split; [done|]. intros d Hd. by apply getitem_Some.
Qed.

(** C8: with a ["default"] entry in the configuration, [get_chunk_size]
    returns a value for every task name; its [KeyError] is out of reach. *)
Theorem get_chunk_size_no_KeyError (task_name : string) :
  is_Some (CHUNK_SIZES !! "default") →
  ∃ v, Queue.get_chunk_size CHUNK_SIZES task_name = Return v.
Proof.
  intros [d Hd]. unfold Queue.get_chunk_size.
  destruct (contains CHUNK_SIZES task_name) eqn:Hin.
  - apply contains_true in Hin as [v Hv]. exists v. by apply getitem_Some.
  - exists d. by apply getitem_Some.
Qed.

End chunk_sizes.

Lemma get_chunk_size_resolution_witness :
  Queue.get_chunk_size Sample.CHUNK_SIZES
    "task_assign_analyses" = Return 5 ∧
  Queue.get_chunk_size Sample.CHUNK_SIZES
    "task_action_submit" = Return 10.
Proof.
  split.
  - apply (proj1 (get_chunk_size_resolution
             Sample.CHUNK_SIZES
             "task_assign_analyses") 5).
    vm_compute. reflexivity.
  - destruct (get_chunk_size_resolution
             Sample.CHUNK_SIZES
             "task_action_submit") as [_ Hdefault].
    destruct Hdefault as [_ Hdefault]; [vm_compute; reflexivity|].
    apply Hdefault. vm_compute. reflexivity.
Defined.

Lemma get_chunk_size_no_KeyError_witness :
  ∃ v, Queue.get_chunk_size {[ "default" := 10 ]} "task_assign_analyses"
       = Return v.
Proof.
  apply (get_chunk_size_no_KeyError {[ "default" := 10 ]}).
  exists 10. vm_compute. reflexivity.
Defined.

(** A dispatcher utility is registered and its backend does not answer:
    the queue counts as enabled, so being enabled is not the same as being
    configured and reachable. *)
Example is_queue_enabled_unreachable :
  ¬ (Queue.is_queue_enabled Sample.unreachable_registry = true ↔
     Queue.configured Sample.unreachable_registry ∧
     Queue.reachable Sample.unreachable_registry).
Proof.
  intros [Hreach _].
  destruct Hreach as [_ (u & Hu & Hr)]; [vm_compute; reflexivity|].
  unfold Sample.unreachable_registry in Hu.
  rewrite lookup_singleton_eq in Hu. injection Hu as <-. discriminate.
Qed.

Lemma is_queue_enabled_configured (reg : gmap string Queue.Utility) :
  Queue.is_queue_enabled reg = true ↔ Queue.configured reg.
Proof.
  unfold Queue.is_queue_enabled, Queue.get_queue_utility, Queue.queryUtility,
    Queue.configured.
  destruct (reg !! Queue.IQueueDispatcher); split; done.
Qed.

(** ** senaite/queue/monkeys/content/worksheet.py *)

Section worksheet.
Import Worksheet.
Context {Brain Obj : Type} (portal : Portal Brain Obj).

(** *** Sorting *)

Lemma sort_reverse_descending (l : list Z) : Sorted Z.ge (sort_reverse l).
Proof.
  unfold sort_reverse. apply @Sorted_merge_sort. intros x y. lia.
Qed.

Lemma sorted_ids_ascending (l : list string) : Sorted string_le (sorted_ids l).
Proof.
  unfold sorted_ids. apply @Sorted_merge_sort. intros x y.
  apply String.leb_total.
Qed.

(** *** The two inner loops, in closed form *)

Lemma add_analysis_fold qe slot (ans : list Obj) (e : Effects) :
  foldl (λ e ar_an, add_analysis portal qe slot ar_an e) e ans =
  {| calls := calls e ++
       ((λ an, AddAnalysis an (Some slot)) <$>
        filter (λ an, IRequestAnalysis_providedBy portal an = false ∨ qe = false) ans);
     to_queue := to_queue e ++
       filter (λ an, IRequestAnalysis_providedBy portal an = true ∧ qe = true) ans |}.
Proof.
  revert e. induction ans as [|an ans IH]; intros e; simpl.
  - rewrite !app_nil_r. by destruct e.
  - rewrite IH. unfold add_analysis. rewrite !filter_cons.
    destruct (IRequestAnalysis_providedBy portal an), qe; simpl;
      repeat case_decide; try naive_solver; simpl;
      by rewrite <- ?app_assoc.
Qed.

Lemma add_one_fold qe (analyses : list Brain) (e : Effects) :
  foldl (add_one portal qe) e analyses =
  {| calls := calls e ++
       ((λ a, AddAnalysis (get_object portal a) None) <$>
        filter (λ a, qe = false ∨
                     IRequestAnalysis_providedBy portal (get_object portal a) = false)
               analyses);
     to_queue := to_queue e ++
       (get_object portal <$>
        filter (λ a, qe = true ∧
                     IRequestAnalysis_providedBy portal (get_object portal a) = true)
               analyses) |}.
Proof.
  revert e. induction analyses as [|a analyses IH]; intros e; simpl.
  - rewrite !app_nil_r. by destruct e.
  - rewrite IH. unfold add_one. rewrite !filter_cons.
    destruct (IRequestAnalysis_providedBy portal (get_object portal a)), qe;
      simpl; repeat case_decide; try naive_solver; simpl;
      by rewrite <- ?app_assoc.
Qed.

Lemma elem_of_flush_queue ws_template (e : Effects) (c : Call Obj) :
  c ∈ flush_queue ws_template e ↔
  c ∈ calls e ∨ (to_queue e ≠ [] ∧ c = QueueAssignAnalyses (to_queue e) ws_template).
Proof.
  unfold flush_queue. destruct (to_queue e) eqn:Hq.
  - split; [by left|]. by intros [?|[? _]].
  - rewrite elem_of_app, list_elem_of_singleton. split.
    + intros [?|?]; [by left|by right].
    + intros [?|[_ ?]]; [by left|by right].
Qed.

(** *** The grouping loop *)

Lemma lookup_append_analysis arid obj (d : gmap string (list Obj)) arid' ans :
  append_analysis arid obj d !! arid' = Some ans →
  (arid' = arid ∧ ans = default [] (d !! arid) ++ [obj]) ∨
  (arid' ≠ arid ∧ d !! arid' = Some ans).
Proof.
  unfold append_analysis. rewrite lookup_insert. case_decide as Heq.
  - intros [= <-]. by left.
  - intros Hl. right. split; [congruence|done].
Qed.

(** What the grouping loop maintains: every grouped request has a slot of
    its own or a fixed one, fixed slots are truthy, and the grouped analyses
    are objects of catalog brains that no task has claimed. *)
Definition groups_ok (analyses : list Brain) (g : Groups) : Prop :=
  (∀ arid, is_Some (ar_analyses g !! arid) →
           is_Some (ar_slots g !! arid) ∨ is_Some (ar_fixed_slots g !! arid)) ∧
  (∀ arid z, ar_fixed_slots g !! arid = Some z → z ≠ 0) ∧
  (∀ arid ans an, ar_analyses g !! arid = Some ans → an ∈ ans →
     ∃ brain, brain ∈ analyses ∧ get_object portal brain = an ∧
              api_is_queued portal brain = false).

Lemma groups_ok_empty analyses avail : groups_ok analyses (empty_groups avail).
Proof.
  repeat split; simpl.
  - intros arid [? H]. by rewrite lookup_empty in H.
  - intros arid z H. by rewrite lookup_empty in H.
  - intros arid ans an H. by rewrite lookup_empty in H.
Qed.

Lemma groups_ok_assign_slot analyses brain slot avail g :
  brain ∈ analyses → api_is_queued portal brain = false →
  groups_ok analyses g →
  groups_ok analyses
    (assign_slot (getRequestID portal brain) (get_object portal brain) slot avail g).
Proof.
  intros Hin Hq (Hslot & Hfixed & Hobj). repeat split; simpl.
  - intros arid [ans Hans].
    apply lookup_append_analysis in Hans as [[-> _]|[Hne Hans]].
    + left. rewrite lookup_insert_eq. eauto.
    + destruct (Hslot arid) as [Hs|Hf]; [eauto| |by right].
      left. by rewrite lookup_insert_ne.
  - done.
  - intros arid ans an Hans Han.
    apply lookup_append_analysis in Hans as [[-> ->]|[Hne Hans]]; [|by eauto].
    apply elem_of_app in Han as [Han|Han%list_elem_of_singleton].
    + destruct (ar_analyses g !! getRequestID portal brain) eqn:Hold;
        simpl in Han; [by eauto|by apply elem_of_nil in Han].
    + subst an. eauto.
Qed.

Lemma groups_ok_fixed_slot analyses brain slot g :
  brain ∈ analyses → api_is_queued portal brain = false →
  truthy_slot slot = true →
  groups_ok analyses g →
  groups_ok analyses
    {| available_slots := available_slots g;
       ar_analyses := append_analysis (getRequestID portal brain)
                        (get_object portal brain) (ar_analyses g);
       ar_slots := ar_slots g;
       ar_fixed_slots := <[getRequestID portal brain := default 0 slot]>
                           (ar_fixed_slots g) |}.
Proof.
  intros Hin Hq Hfix (Hs & Hf & Hobj). repeat split; simpl.
  - intros arid [ans Hans].
    apply lookup_append_analysis in Hans as [[-> _]|[Hne Hans]].
    + right. rewrite lookup_insert_eq. eauto.
    + destruct (Hs arid) as [?|?]; [eauto|by left|].
      right. by rewrite lookup_insert_ne.
  - intros arid z. rewrite lookup_insert. case_decide; [|by eauto].
    intros [= <-]. destruct slot; simpl in *; [|done].
    by apply bool_decide_eq_true in Hfix.
  - intros arid ans an Hans Han.
    apply lookup_append_analysis in Hans as [[-> ->]|[Hne Hans]]; [|by eauto].
    apply elem_of_app in Han as [Han|Han%list_elem_of_singleton].
    + destruct (ar_analyses g !! getRequestID portal brain) eqn:Hold;
        simpl in Han; [by eauto|by apply elem_of_nil in Han].
    + subst an. eauto.
Qed.

Lemma group_brain_ok analyses instrument method num brain g :
  brain ∈ analyses → groups_ok analyses g →
  ∃ flow, group_brain portal instrument method num brain g = Return flow ∧
          groups_ok analyses (match flow with Next g' | Break g' => g' end).
Proof.
  intros Hin Hok. unfold group_brain.
  destruct (api_is_queued portal brain) eqn:Hq; [by eauto|].
  destruct (_ && _); [by eauto|].
  destruct (_ && _); [by eauto|].
  destruct (negb _) eqn:Hslot; [|eexists; split; [done|];
                                  by apply groups_ok_assign_slot].
  destruct (decide (length (available_slots g) = 0%nat)) as [Hlen|Hlen];
    destruct (decide (num = 0%nat)) as [Hnum|Hnum];
    rewrite ?(bool_decide_eq_true_2 _ Hlen), ?(bool_decide_eq_false_2 _ Hlen),
      ?(bool_decide_eq_true_2 _ Hnum), ?(bool_decide_eq_false_2 _ Hnum); simpl;
    try (by eauto).
  - (* the worksheet has analyses, no slot is left *)
    destruct (truthy_slot (get_slot_position portal (get_object portal brain)))
      eqn:Hfix; [|by eauto].
    eexists; split; [done|]. by apply groups_ok_fixed_slot.
  - (* the worksheet is empty, slots are left *)
    destruct (pop_nonempty (available_slots g)) as (slot & avail & -> & _).
    { by destruct (available_slots g). }
    simpl. eexists; split; [done|]. by apply groups_ok_assign_slot.
  - (* the worksheet has analyses, slots are left *)
    destruct (truthy_slot (get_slot_position portal (get_object portal brain)))
      eqn:Hfix.
    + eexists; split; [done|]. by apply groups_ok_fixed_slot.
    + destruct (pop_nonempty (available_slots g)) as (slot & avail & -> & _).
      { by destruct (available_slots g). }
      simpl. eexists; split; [done|]. by apply groups_ok_assign_slot.
Qed.

Lemma group_analyses_ok all instrument method num analyses g :
  analyses ⊆ all → groups_ok all g →
  ∃ g', group_analyses portal instrument method num analyses g = Return g' ∧
        groups_ok all g'.
Proof.
  revert g. induction analyses as [|brain rest IH]; intros g Hsub Hok; simpl.
  - by eauto.
  - destruct (group_brain_ok all instrument method num brain g)
      as (flow & -> & Hflow); [apply Hsub; by left|done|].
    simpl. destruct flow as [g'|g']; [|by eauto].
    apply IH; [|done]. intros b Hb. apply Hsub. by right.
Qed.

(** The grouping never raises, and what it groups satisfies [groups_ok]. *)
Lemma routine_groups_ok wst :
  ∃ og, routine_groups portal wst = Return og ∧
        match og with
        | None => bac portal (getService wst) = []
        | Some g => groups_ok (bac portal (getService wst)) g
        end.
Proof.
  unfold routine_groups.
  destruct (bac portal (getService wst)) as [|brain rest] eqn:Hbac;
    [by eexists|].
  destruct (group_analyses_ok (brain :: rest) (getRawInstrument wst)
              (getRawRestrictToMethod wst)
              (length (get_routine_analyses portal)) (brain :: rest)
              (empty_groups (sort_reverse (resolve_available_slots portal wst))))
    as (g & Hg & Hok); [done|apply groups_ok_empty|].
  rewrite Hg. simpl. by eexists (Some g).
Qed.

(** *** The loop that adds the groups *)

(** How [add_regular] over the requests [ar_ids] extends the effects [e]
    to [e']: an analysis of these groups is added at a slot when it is not a
    request analysis or the queue is off, and is put in [to_queue]
    otherwise; nothing else enters, nothing leaves. *)
Definition extends_with (qe : bool) (g : Groups) (ar_ids : list string)
  (e e' : Effects) : Prop :=
  (∀ c, c ∈ calls e' →
     c ∈ calls e ∨
     ∃ ar_id ans an slot, ar_id ∈ ar_ids ∧ ar_analyses g !! ar_id = Some ans ∧
       an ∈ ans ∧ (IRequestAnalysis_providedBy portal an = false ∨ qe = false) ∧
       c = AddAnalysis an (Some slot)) ∧
  (∀ an, an ∈ to_queue e' →
     an ∈ to_queue e ∨
     ∃ ar_id ans, ar_id ∈ ar_ids ∧ ar_analyses g !! ar_id = Some ans ∧
       an ∈ ans ∧ IRequestAnalysis_providedBy portal an = true ∧ qe = true) ∧
  (∀ ar_id ans an, ar_id ∈ ar_ids → ar_analyses g !! ar_id = Some ans →
     an ∈ ans →
     (IRequestAnalysis_providedBy portal an = false ∨ qe = false →
      ∃ slot, AddAnalysis an (Some slot) ∈ calls e') ∧
     (IRequestAnalysis_providedBy portal an = true ∧ qe = true →
      an ∈ to_queue e')) ∧
  (∀ c, c ∈ calls e → c ∈ calls e') ∧
  (∀ an, an ∈ to_queue e → an ∈ to_queue e').

Lemma add_regular_extends qe g ar_ids slots e :
  (∀ arid z, ar_fixed_slots g !! arid = Some z → z ≠ 0) →
  (∀ ar_id, ar_id ∈ ar_ids → is_Some (ar_analyses g !! ar_id)) →
  (length (filter (λ a, ar_fixed_slots g !! a = None) ar_ids) ≤ length slots)%nat →
  ∃ e', add_regular portal qe g ar_ids slots e = Return e' ∧
        extends_with qe g ar_ids e e'.
Proof.
  intros Hfixed. revert slots e.
  induction ar_ids as [|ar_id rest IH]; intros slots e Hdom Hlen; simpl.
  - exists e. split; [done|]. unfold extends_with. split_and!; try by eauto.
    intros a ans an Hin. by apply elem_of_nil in Hin.
  - destruct (Hdom ar_id) as [ans Hans]; [by left|].
    assert (∃ slot slots',
      (if negb (truthy_slot (ar_fixed_slots g !! ar_id)) then pop slots
       else Return (default 0 (ar_fixed_slots g !! ar_id), slots))
      = Return (slot, slots') ∧
      (length (filter (λ a, ar_fixed_slots g !! a = None) rest)
       ≤ length slots')%nat) as (slot & slots' & -> & Hlen').
    { rewrite filter_cons in Hlen.
      destruct (ar_fixed_slots g !! ar_id) as [z|] eqn:Hfix; simpl.
      - rewrite decide_False in Hlen by done.
        apply Hfixed in Hfix. rewrite (bool_decide_eq_true_2 _ Hfix). simpl.
        by eauto.
      - rewrite decide_True in Hlen by done. simpl in Hlen.
        destruct (pop_nonempty slots) as (slot & slots' & -> & Hl).
        { destruct slots; [simpl in Hlen; lia|done]. }
        exists slot, slots'. split; [done|]. lia. }
    simpl. rewrite (getitem_Some _ _ _ Hans). simpl.
    destruct (IH slots'
                (foldl (λ e ar_an, add_analysis portal qe slot ar_an e) e ans))
      as (e' & -> & Hc & Hq & Hall & Hmc & Hmq);
      [intros; apply Hdom; by right|done|].
    exists e'. split; [done|].
    rewrite add_analysis_fold in Hc, Hq, Hmc, Hmq. simpl in *.
    unfold extends_with. split_and!.
    + intros c Hc'. destruct (Hc c Hc') as [Hold|Hnew].
      * apply elem_of_app in Hold as [?|Hhere]; [by left|right].
        apply list_elem_of_fmap in Hhere as (an & -> & Han).
        apply list_elem_of_filter in Han as [Hd Han].
        exists ar_id, ans, an, slot. repeat split; try done. by left.
      * right. destruct Hnew as (a & ans' & an & sl & Ha & ?).
        exists a, ans', an, sl. split; [by right|done].
    + intros an Han'. destruct (Hq an Han') as [Hold|Hnew].
      * apply elem_of_app in Hold as [?|Hhere]; [by left|right].
        apply list_elem_of_filter in Hhere as [[Hp He] Han].
        exists ar_id, ans. repeat split; try done. by left.
      * right. destruct Hnew as (a & ans' & Ha & ?).
        exists a, ans'. split; [by right|done].
    + intros a ans' an Ha Hans' Han. split; intros Hd.
      * apply elem_of_cons in Ha as [->|Hrest];
          [|by apply (Hall a ans' an Hrest Hans' Han)].
        exists slot. apply Hmc, elem_of_app. right.
        apply list_elem_of_fmap. exists an. split; [done|].
        apply list_elem_of_filter. split; [done|]. congruence.
      * apply elem_of_cons in Ha as [->|Hrest];
          [|by apply (Hall a ans' an Hrest Hans' Han)].
        apply Hmq, elem_of_app. right.
        apply list_elem_of_filter. split; [done|]. congruence.
    + intros c Hin. apply Hmc, elem_of_app. by left.
    + intros an Hin. apply Hmq, elem_of_app. by left.
Qed.

Lemma elem_of_sorted_keys {V} (d : gmap string V) k :
  k ∈ sorted_ids (keys d) ↔ is_Some (d !! k).
Proof.
  unfold sorted_ids, keys. rewrite merge_sort_Permutation.
  rewrite list_elem_of_fmap. split.
  - intros ([k' v] & -> & Hkv). apply elem_of_map_to_list in Hkv. by eauto.
  - intros [v Hv]. exists (k, v). split; [done|].
    by apply elem_of_map_to_list.
Qed.

Lemma elem_of_keys {V} (d : gmap string V) k :
  k ∈ keys d ↔ is_Some (d !! k).
Proof.
  unfold keys. rewrite list_elem_of_fmap. split.
  - intros ([k' v] & -> & Hkv). apply elem_of_map_to_list in Hkv. by eauto.
  - intros [v Hv]. exists (k, v). split; [done|].
    by apply elem_of_map_to_list.
Qed.

Lemma NoDup_sorted_keys {V} (d : gmap string V) :
  NoDup (sorted_ids (keys d)).
Proof.
  unfold sorted_ids, keys. rewrite merge_sort_Permutation.
  apply NoDup_fst_map_to_list.
Qed.

(** There are enough slots for the requests without a fixed one. *)
Lemma enough_slots analyses g :
  groups_ok analyses g →
  (length (filter (λ a, ar_fixed_slots g !! a = None)
             (sorted_ids (keys (ar_analyses g))))
   ≤ length (sort_reverse (values (ar_slots g))))%nat.
Proof.
  intros (Hslot & _ & _).
  unfold sort_reverse, values. rewrite merge_sort_Permutation, length_fmap.
  rewrite <- (length_fmap fst). apply submseteq_length, NoDup_submseteq.
  - apply NoDup_filter, NoDup_sorted_keys.
  - intros k [Hfix Hk]%list_elem_of_filter.
    apply elem_of_sorted_keys in Hk. apply elem_of_keys.
    destruct (Hslot k Hk) as [?|[z Hz]]; [done|congruence].
Qed.

(** The routine never raises.  With an empty catalog result it does
    nothing; otherwise its calls are those of the adding loop over the
    grouped requests, followed by the queue submission, if any. *)
Lemma routine_runs wst :
  ∃ og, routine_groups portal wst = Return og ∧
    match og with
    | None =>
        bac portal (getService wst) = [] ∧
        _apply_worksheet_template_routine_analyses portal wst = Return []
    | Some g =>
        groups_ok (bac portal (getService wst)) g ∧
        ∃ e, _apply_worksheet_template_routine_analyses portal wst
             = Return (flush_queue (Some wst) e) ∧
             extends_with (api_is_queue_enabled portal "task_assign_analyses")
               g (sorted_ids (keys (ar_analyses g)))
               {| calls := []; to_queue := [] |} e
    end.
Proof.
  destruct (routine_groups_ok wst) as (og & Hog & Hg).
  exists og. split; [done|].
  unfold _apply_worksheet_template_routine_analyses. rewrite Hog. simpl.
  destruct og as [g|]; [|done].
  split; [done|].
  destruct (add_regular_extends
              (api_is_queue_enabled portal "task_assign_analyses") g
              (sorted_ids (keys (ar_analyses g)))
              (sort_reverse (values (ar_slots g)))
              {| calls := []; to_queue := [] |})
    as (e & -> & Hext).
  - apply Hg.
  - intros k. by rewrite elem_of_sorted_keys.
  - by eapply enough_slots.
  - by exists e.
Qed.

(** *** Fallback when the queue is off *)

Lemma queue_off_addAnalyses (analyses : list Brain) :
  api_is_queue_enabled portal "task_assign_analyses" = false →
  addAnalyses portal analyses
  = (λ a, AddAnalysis (get_object portal a) None) <$> analyses.
Proof.
  intros Hoff. unfold addAnalyses. rewrite Hoff, add_one_fold. simpl.
  rewrite (filter_none (λ a, false = true ∧ _)) by (by intros a [? _]).
  rewrite filter_all by (intros; by left). done.
Qed.

Lemma queue_off_routine wst :
  api_is_queue_enabled portal "task_assign_analyses" = false →
  ∃ og cs,
    routine_groups portal wst = Return og ∧
    _apply_worksheet_template_routine_analyses portal wst = Return cs ∧
    (∀ c, c ∈ cs → ∃ an slot, c = AddAnalysis an (Some slot)) ∧
    (∀ g arid ans an, og = Some g → ar_analyses g !! arid = Some ans →
       an ∈ ans → ∃ slot, AddAnalysis an (Some slot) ∈ cs).
Proof.
  intros Hoff. destruct (routine_runs wst) as (og & Hog & Hrun).
  destruct og as [g|].
  - destruct Hrun as (Hok & e & Hrun & Hc & Hq & Hall & _).
    rewrite Hoff in Hc, Hq, Hall.
    assert (to_queue e = []) as Hempty.
    { destruct (to_queue e) as [|an q] eqn:Hq'; [done|].
      destruct (Hq an) as [Hin|(? & ? & ? & ? & ? & ? & ?)];
        [by left|by apply elem_of_nil in Hin|done]. }
    exists (Some g), (calls e). split_and!; [done| | |].
    + rewrite Hrun. unfold flush_queue. by rewrite Hempty.
    + intros c Hin.
      destruct (Hc c Hin) as [Hnil|(? & ? & an & slot & _ & _ & _ & _ & ->)];
        [by apply elem_of_nil in Hnil|by eauto].
    + intros g' arid ans an [= <-] Hans Han.
      apply (Hall arid ans an); [|done|done|by right].
      apply elem_of_sorted_keys. by eauto.
  - destruct Hrun as [_ Hrun]. exists None, []. split_and!; try done.
    intros c Hin. by apply elem_of_nil in Hin.
Qed.

(** C2: with the queue not enabled for ["task_assign_analyses"],
    [addAnalyses] adds every analysis it is given with [addAnalysis], and the
    worksheet-template routine adds every analysis it has grouped with
    [addAnalysis]; neither calls [queue_assign_analyses]. *)
Theorem queue_disabled_adds_directly wst (analyses : list Brain) :
  api_is_queue_enabled portal "task_assign_analyses" = false →
  addAnalyses portal analyses
  = (λ a, AddAnalysis (get_object portal a) None) <$> analyses ∧
  ∃ og cs,
    routine_groups portal wst = Return og ∧
    _apply_worksheet_template_routine_analyses portal wst = Return cs ∧
    (∀ c, c ∈ cs → ∃ an slot, c = AddAnalysis an (Some slot)) ∧
    (∀ g arid ans an, og = Some g → ar_analyses g !! arid = Some ans →
       an ∈ ans → ∃ slot, AddAnalysis an (Some slot) ∈ cs).
Proof.
  intros Hoff. split.
  - by apply queue_off_addAnalyses.
  - by apply queue_off_routine.
Qed.

(** C10: when the catalog returns no unassigned routine analyses, the
    worksheet-template routine returns at once: it calls neither
    [addAnalysis] nor [queue_assign_analyses]. *)
Theorem empty_catalog_no_calls wst :
  bac portal (getService wst) = [] →
  _apply_worksheet_template_routine_analyses portal wst = Return [].
Proof.
  intros Hbac.
  unfold _apply_worksheet_template_routine_analyses, routine_groups.
  by rewrite Hbac.
Qed.

(** C5: an analysis that [is_queued] reports as claimed by a task in
    flight (no unclaimed brain of the catalog result stands for the same
    object) is skipped by the worksheet-template routine: it is not passed
    to [addAnalysis] and it is not in the submission to the queue. *)
Theorem queued_analysis_skipped wst (brain : Brain) :
  api_is_queued portal brain = true →
  (∀ b, b ∈ bac portal (getService wst) →
        get_object portal b = get_object portal brain →
        api_is_queued portal b = true) →
  ∃ cs, _apply_worksheet_template_routine_analyses portal wst = Return cs ∧
    (∀ position, AddAnalysis (get_object portal brain) position ∉ cs) ∧
    (∀ ans ws_template, QueueAssignAnalyses ans ws_template ∈ cs →
                        get_object portal brain ∉ ans).
Proof.
  intros Hq Hothers. destruct (routine_runs wst) as (og & Hog & Hrun).
  destruct og as [g|].
  - destruct Hrun as ((_ & _ & Hobj) & e & -> & Hc & Hqueue & _).
    assert (∀ arid ans, ar_analyses g !! arid = Some ans →
                        get_object portal brain ∉ ans) as Hout.
    { intros arid ans Hans Hin.
      destruct (Hobj arid ans _ Hans Hin) as (b & Hb & Heq & Hfree).
      rewrite (Hothers b Hb Heq) in Hfree. done. }
    eexists. split; [done|]. split.
    + intros position [Hin|[_ ?]]%elem_of_flush_queue; [|done].
      destruct (Hc _ Hin) as [Hnil|(a & ans & an & sl & _ & Hans & Han & _ & Heq)];
        [by apply elem_of_nil in Hnil|].
      injection Heq as <- _. by apply (Hout a ans).
    + intros ans ws_template [Hin|[_ Heq]]%elem_of_flush_queue.
      * destruct (Hc _ Hin) as [Hnil|(? & ? & ? & ? & _ & _ & _ & _ & ?)];
          [by apply elem_of_nil in Hnil|done].
      * injection Heq as -> _. intros Hin.
        destruct (Hqueue _ Hin) as [Hnil|(a & ans & _ & Hans & Han & _)];
          [by apply elem_of_nil in Hnil|]. by apply (Hout a ans).
  - destruct Hrun as [_ ->]. exists []. split; [done|]. split.
    + intros position. apply not_elem_of_nil.
    + intros ans ws_template Hin. by apply elem_of_nil in Hin.
Qed.

(** C9: an analysis that does not provide [IRequestAnalysis] is added with
    [addAnalysis] by [addAnalyses] and by the worksheet-template routine,
    whether or not the queue is enabled; whatever either of them submits to
    the queue provides [IRequestAnalysis]. *)
Theorem reference_analyses_added_directly wst (analyses : list Brain) :
  ((∀ a, a ∈ analyses →
         IRequestAnalysis_providedBy portal (get_object portal a) = false →
         AddAnalysis (get_object portal a) None ∈ addAnalyses portal analyses) ∧
   (∀ ans ws_template an,
      QueueAssignAnalyses ans ws_template ∈ addAnalyses portal analyses →
      an ∈ ans → IRequestAnalysis_providedBy portal an = true)) ∧
  ∃ og cs,
    routine_groups portal wst = Return og ∧
    _apply_worksheet_template_routine_analyses portal wst = Return cs ∧
    (∀ g arid ans an, og = Some g → ar_analyses g !! arid = Some ans →
       an ∈ ans → IRequestAnalysis_providedBy portal an = false →
       ∃ slot, AddAnalysis an (Some slot) ∈ cs) ∧
    (∀ ans ws_template an, QueueAssignAnalyses ans ws_template ∈ cs →
       an ∈ ans → IRequestAnalysis_providedBy portal an = true).
Proof.
  split.
  - unfold addAnalyses. rewrite add_one_fold. simpl. split.
    + intros a Hin Href. apply elem_of_flush_queue. left. simpl.
      apply list_elem_of_fmap. exists a. split; [done|].
      apply list_elem_of_filter. split; [by right|done].
    + intros ans ws_template an [Hin|[_ Heq]]%elem_of_flush_queue; simpl in *.
      * apply list_elem_of_fmap in Hin as (? & ? & _). done.
      * injection Heq as -> _.
        intros (a & -> & [[_ Hp] _]%list_elem_of_filter)%list_elem_of_fmap.
        done.
  - destruct (routine_runs wst) as (og & Hog & Hrun).
    destruct og as [g|].
    + destruct Hrun as (_ & e & Hrun & Hc & Hq & Hall & _).
      exists (Some g), (flush_queue (Some wst) e). split_and!; try done.
      * intros g' arid ans an [= <-] Hans Han Href.
        destruct (Hall arid ans an) as [Hadd _]; [|done|done|].
        { apply elem_of_sorted_keys. by eauto. }
        destruct Hadd as [slot Hslot]; [by left|].
        exists slot. apply elem_of_flush_queue. by left.
      * intros ans ws_template an [Hin|[_ Heq]]%elem_of_flush_queue.
        -- destruct (Hc _ Hin) as [Hnil|(? & ? & ? & ? & _ & _ & _ & _ & ?)];
             [by apply elem_of_nil in Hnil|done].
        -- injection Heq as -> _. intros Hin.
           destruct (Hq _ Hin) as [Hnil|(? & ? & _ & _ & _ & Hp & _)];
             [by apply elem_of_nil in Hnil|done].
    + destruct Hrun as [_ Hrun]. exists None, []. split_and!; try done.
      intros ans ws_template an Hin. by apply elem_of_nil in Hin.
Qed.

End worksheet.

Lemma queue_disabled_adds_directly_witness :
  Worksheet.addAnalyses (Sample.portal Sample.catalog false) Sample.catalog
  = [Worksheet.AddAnalysis "a1" None; Worksheet.AddAnalysis "b1" None;
     Worksheet.AddAnalysis "a2" None; Worksheet.AddAnalysis "c1" None] ∧
  ∃ og cs,
    Worksheet.routine_groups (Sample.portal Sample.catalog false) Sample.wst
    = Return og ∧
    Worksheet._apply_worksheet_template_routine_analyses
      (Sample.portal Sample.catalog false) Sample.wst = Return cs ∧
    (∀ c, c ∈ cs → ∃ an slot, c = Worksheet.AddAnalysis an (Some slot)) ∧
    (∀ g arid ans an, og = Some g →
       Worksheet.ar_analyses g !! arid = Some ans → an ∈ ans →
       ∃ slot, Worksheet.AddAnalysis an (Some slot) ∈ cs).
Proof.
  apply (queue_disabled_adds_directly (Sample.portal Sample.catalog false)
           Sample.wst Sample.catalog).
  reflexivity.
Defined.

Lemma empty_catalog_no_calls_witness :
  Worksheet._apply_worksheet_template_routine_analyses
    (Sample.portal [] true) Sample.wst = Return [].
Proof.
  apply (empty_catalog_no_calls (Sample.portal [] true) Sample.wst).
  reflexivity.
Defined.

Lemma queued_analysis_skipped_witness :
  ∃ cs,
    Worksheet._apply_worksheet_template_routine_analyses
      (Sample.portal Sample.catalog true) Sample.wst = Return cs ∧
    (∀ position, Worksheet.AddAnalysis "b1" position ∉ cs) ∧
    (∀ ans ws_template,
       Worksheet.QueueAssignAnalyses ans ws_template ∈ cs → "b1" ∉ ans).
Proof.
  apply (queued_analysis_skipped (Sample.portal Sample.catalog true)
           Sample.wst "b1").
  - reflexivity.
  - simpl. intros b _ ->. reflexivity.
Defined.

Lemma reference_analyses_added_directly_witness :
  Worksheet.AddAnalysis "c1" None
  ∈ Worksheet.addAnalyses (Sample.portal Sample.catalog true) Sample.catalog.
Proof.
  apply (proj1 (proj1 (reference_analyses_added_directly
                         (Sample.portal Sample.catalog true) Sample.wst
                         Sample.catalog)) "c1").
  - unfold Sample.catalog. set_solver.
  - reflexivity.
Defined.

(** What the sample catalog leads to with the queue on: the reference
    analysis is added at its slot, the request analyses are submitted, the
    claimed one is left out. *)
Example routine_sample :
  Worksheet._apply_worksheet_template_routine_analyses
    (Sample.portal Sample.catalog true) Sample.wst
  = Return [Worksheet.AddAnalysis "c1" (Some 2);
            Worksheet.QueueAssignAnalyses ["a1"; "a2"] (Some Sample.wst)].
Proof. vm_compute. reflexivity. Qed.

Lemma guarded_disabled {A} (reg : gmap string Queue.Utility) (noop : A)
  operation st :
  Queue.is_queue_enabled reg = false →
  Dispatcher.guarded reg noop operation st = (noop, st).
Proof. unfold Dispatcher.guarded, Dispatcher.is_enabled. by intros ->. Qed.

(** C4: [is_queue_enabled] is true exactly when a dispatcher utility is
    registered (a queue backend is configured), whether or not its backend
    can be reached.  When it is false, all other queue operations are
    no-ops: a submission creates no task and leaves the store as it is,
    [is_queued] and [next_runnable] answer with nothing, and no history of
    operations changes the store; and the callers fall back to synchronous
    execution: [addAnalyses] adds every analysis with [addAnalysis], the
    worksheet-template routine adds every analysis it has grouped with
    [addAnalysis], and neither calls [queue_assign_analyses]. *)
Theorem is_queue_enabled_contract (reg : gmap string Queue.Utility) :
  (Queue.is_queue_enabled reg = true ↔ Queue.configured reg) ∧
  (Queue.is_queue_enabled reg = false →
   (∀ policy CHUNK_SIZES handlers st task_name target items size,
      Dispatcher.submit reg policy CHUNK_SIZES handlers st task_name target
        items size = (None, st)) ∧
   (∀ st target, Dispatcher.is_queued reg st target = false) ∧
   (∀ select st, Dispatcher.next_runnable reg select st = None) ∧
   (∀ policy CHUNK_SIZES handlers history st,
      foldl (Dispatcher.apply_op reg policy CHUNK_SIZES handlers) st history
      = st)) ∧
  (Queue.is_queue_enabled reg = false →
   ∀ (Brain Obj : Type) (site : Worksheet.Portal Brain Obj)
     (get_uid : Brain → string) st wst analyses,
     Worksheet.addAnalyses (Dispatcher.with_queue_api reg st get_uid site)
       analyses
     = (λ a, Worksheet.AddAnalysis (Worksheet.get_object site a) None)
       <$> analyses ∧
     ∃ og cs,
       Worksheet.routine_groups (Dispatcher.with_queue_api reg st get_uid site)
         wst = Return og ∧
       Worksheet._apply_worksheet_template_routine_analyses
         (Dispatcher.with_queue_api reg st get_uid site) wst = Return cs ∧
       (∀ c, c ∈ cs → ∃ an slot, c = Worksheet.AddAnalysis an (Some slot)) ∧
       (∀ g arid ans an, og = Some g →
          Worksheet.ar_analyses g !! arid = Some ans → an ∈ ans →
          ∃ slot, Worksheet.AddAnalysis an (Some slot) ∈ cs)).
Proof.
  split_and!; [apply is_queue_enabled_configured| |].
  - intros Hoff. split_and!.
    + intros. unfold Dispatcher.submit. by apply guarded_disabled.
    + intros. unfold Dispatcher.is_queued. by rewrite guarded_disabled.
    + intros. unfold Dispatcher.next_runnable. by rewrite guarded_disabled.
    + intros policy CHUNK_SIZES handlers history.
      induction history as [|op history IH]; intros st; [done|]. simpl.
      unfold Dispatcher.apply_op at 2. rewrite guarded_disabled by done.
      apply IH.
  - intros Hoff Brain Obj site get_uid st wst analyses. split.
    + by apply (queue_off_addAnalyses
                  (Dispatcher.with_queue_api reg st get_uid site)).
    + by apply queue_off_routine.
Qed.

Lemma is_queue_enabled_contract_witness :
  Dispatcher.submit ∅ Engine.Merge Sample.CHUNK_SIZES Sample.handlers
    Engine.empty_store "task_assign_analyses" "worksheet-1" ["a1"; "a2"] None
  = (None, Engine.empty_store) ∧
  Worksheet.addAnalyses
    (Dispatcher.with_queue_api ∅ Engine.empty_store id
       (Sample.portal Sample.catalog true))
    Sample.catalog
  = [Worksheet.AddAnalysis "a1" None; Worksheet.AddAnalysis "b1" None;
     Worksheet.AddAnalysis "a2" None; Worksheet.AddAnalysis "c1" None].
Proof.
  destruct (is_queue_enabled_contract ∅) as (_ & Hnoop & Hfallback).
  split.
  - apply Hnoop. reflexivity.
  - apply (Hfallback ltac:(reflexivity) string string
             (Sample.portal Sample.catalog true) id Engine.empty_store
             Sample.wst Sample.catalog).
Defined.

(** With the same arguments an enabled dispatcher creates the task. *)
Example submit_enabled_sample :
  (Dispatcher.submit
     {[ Queue.IQueueDispatcher :=
          {| Queue.utility_name := "queue"; Queue.backend_reachable := true |} ]}
     Engine.Merge Sample.CHUNK_SIZES Sample.handlers
     Engine.empty_store "task_assign_analyses" "worksheet-1" ["a1"; "a2"] None).1
  = Some (Return 0%nat).
Proof. vm_compute. reflexivity. Qed.

(** ** The dispatch engine *)

(** *** Chunker *)

Lemma split_upto_chunks fuel (items : list Engine.Item) (n : nat) :
  (0 < n)%nat → (length items ≤ fuel)%nat →
  Forall (λ chunk, (length chunk ≤ n)%nat) (Engine.split_upto fuel items n) ∧
  concat (Engine.split_upto fuel items n) = items.
Proof.
  intros Hn. revert items.
  induction fuel as [|fuel IH]; intros items Hfuel.
  - destruct items; [by split|simpl in Hfuel; lia].
  - destruct items as [|x items]; [by split|].
    destruct (IH (drop n (x :: items))) as [Hbound Hcat].
    { rewrite length_drop. simpl in *. lia. }
    cbn [Engine.split_upto]. split.
    + constructor; [|done]. rewrite length_take. lia.
    + cbn [concat]. rewrite Hcat. apply take_drop.
Qed.

(** C6: for a positive chunk size, every chunk of [split] has at most
    [chunk_size] items, and the chunks concatenated in order are the
    original items. *)
Theorem split_bounded_roundtrip (items : list Engine.Item) (chunk_size : nat) :
  (0 < chunk_size)%nat →
  Forall (λ chunk, (length chunk ≤ chunk_size)%nat)
         (Engine.split items chunk_size) ∧
  concat (Engine.split items chunk_size) = items.
Proof. intros Hpos. by apply split_upto_chunks. Qed.

Lemma split_bounded_roundtrip_witness :
  Forall (λ chunk, (length chunk ≤ 2)%nat)
         (Engine.split ["a1"; "a2"; "a3"; "a4"; "a5"] 2) ∧
  concat (Engine.split ["a1"; "a2"; "a3"; "a4"; "a5"] 2)
  = ["a1"; "a2"; "a3"; "a4"; "a5"].
Proof.
  apply (split_bounded_roundtrip ["a1"; "a2"; "a3"; "a4"; "a5"] 2). lia.
Defined.

Example split_sample :
  Engine.split ["a1"; "a2"; "a3"; "a4"; "a5"] 2
  = [["a1"; "a2"]; ["a3"; "a4"]; ["a5"]].
Proof. reflexivity. Qed.

(** 250 items in chunks of 50 make 5 chunks. *)
Example split_250_by_50 :
  length (Engine.split (replicate 250 "item") 50) = 5%nat.
Proof. vm_compute. reflexivity. Qed.

(** *** Executor *)

(** C7: [run] returns an [ExecutionResult] for every registry, task and
    chunk, and never raises: when the registered handler faults, the fault
    is the [error] of the result; when it reports, the report is the
    result. *)
Theorem run_never_raises (handlers : gmap string Engine.Handler)
  (task : Engine.Task) (chunk : list Engine.Item) :
  ∃ r, Engine.run handlers task chunk = Return r ∧
    (∀ h e, handlers !! Engine.name task = Some h →
            h (Engine.target_ref task) chunk = Raise e →
            Engine.error r = Some e) ∧
    (∀ h r', handlers !! Engine.name task = Some h →
             h (Engine.target_ref task) chunk = Return r' → r = r').
Proof.
  unfold Engine.run.
  destruct (handlers !! Engine.name task) as [h|] eqn:Hh; simpl.
  - destruct (h (Engine.target_ref task) chunk) as [r|e] eqn:Hrun; simpl.
    + exists r. split; [done|]. split; intros h' x [= <-]; congruence.
    + eexists. split; [done|]. split; intros h' x [= <-]; simpl; congruence.
  - eexists. split; [done|]. split; intros h' x [=].
Qed.

Lemma run_never_raises_witness :
  ∃ r, Engine.run Sample.handlers
         (Engine.new_task 0 "task_assign_analyses" "worksheet-1" [] 5) []
       = Return r ∧
       Engine.error r = Some (ChunkExecutionError "nothing to assign").
Proof.
  destruct (run_never_raises Sample.handlers
              (Engine.new_task 0 "task_assign_analyses" "worksheet-1" [] 5) [])
    as (r & Hrun & Hfault & _).
  exists r. split; [exact Hrun|].
  apply (Hfault Sample.assign_handler); reflexivity.
Defined.

(** *** Task store and deduplication index *)

(** The index holds every active task under its target. *)
Definition store_ok (st : Engine.Store) : Prop :=
  ∀ i t, Engine.tasks st !! i = Some t →
         Engine.is_active (Engine.status t) = true →
         Engine.dedup st !! Engine.target_ref t = Some i.

Lemma legal_from_active from to :
  Engine.legal from to = true → Engine.is_active from = true.
Proof. by destruct from, to. Qed.

Lemma store_ok_empty : store_ok Engine.empty_store.
Proof. intros i t Hi. simpl in Hi. by rewrite lookup_empty in Hi. Qed.

Lemma submit_store_ok policy CHUNK_SIZES handlers st task_name target items size :
  store_ok st →
  store_ok (Engine.submit policy CHUNK_SIZES handlers st task_name target
              items size).2.
Proof.
  intros Hok. unfold Engine.submit.
  destruct (negb _); [done|].
  destruct (Engine.dedup st !! target) as [holder|] eqn:Hlock.
  - destruct policy; [|done]. simpl. intros i t. simpl.
    rewrite lookup_alter. case_decide as Heq; [|by apply Hok].
    subst i. destruct (Engine.tasks st !! holder) as [t0|] eqn:Ht0; [|done].
    intros [= <-]. simpl. by apply Hok.
  - destruct (from_option _ _ _) as [n|e]; [|done]. simpl.
    intros i t. simpl. rewrite lookup_insert. case_decide as Heq.
    + subst i. intros [= <-] _. simpl. by rewrite lookup_insert_eq.
    + intros Ht Hact. specialize (Hok i t Ht Hact).
      rewrite lookup_insert_ne; [done|]. congruence.
Qed.

Lemma transition_store_ok tid to rest st :
  store_ok st → store_ok (Engine.transition tid to rest st).
Proof.
  intros Hok. unfold Engine.transition.
  destruct (Engine.tasks st !! tid) as [t|] eqn:Ht; [|done].
  destruct (Engine.legal (Engine.status t) to) eqn:Hlegal; [|done].
  destruct (Engine.payload_allows to rest); [|done]. simpl.
  pose proof (Hok tid t Ht (legal_from_active _ _ Hlegal)) as Hlock.
  intros i t'. simpl. rewrite lookup_insert. case_decide as Heq.
  - subst i. intros [= <-]. simpl. by intros ->.
  - intros Ht' Hact. specialize (Hok i t' Ht' Hact).
    destruct (Engine.is_active to); [done|].
    rewrite lookup_delete_ne; [done|]. congruence.
Qed.

Lemma apply_op_store_ok policy CHUNK_SIZES handlers st op :
  store_ok st → store_ok (Engine.apply_op policy CHUNK_SIZES handlers st op).
Proof.
  intros Hok. destruct op; simpl.
  - by apply submit_store_ok.
  - by apply transition_store_ok.
Qed.

Lemma after_store_ok policy CHUNK_SIZES handlers history :
  store_ok (Engine.after policy CHUNK_SIZES handlers history).
Proof.
  unfold Engine.after. generalize store_ok_empty.
  generalize Engine.empty_store as st. 
  induction history as [|op history IH]; intros st Hok; simpl; [done|].
  by apply IH, apply_op_store_ok.
Qed.

(** C1: after any history of submissions and transitions, two active
    tasks never reference the same target; and a submission for a target
    that an active task holds is merged into that task's payload, or is
    refused with [DuplicateTargetError], as the policy says. *)
Theorem one_active_task_per_target (policy : Engine.Policy)
  (CHUNK_SIZES : gmap string Z) (handlers : gmap string Engine.Handler)
  (history : list Engine.Op) :
  (∀ i j t u,
     Engine.tasks (Engine.after policy CHUNK_SIZES handlers history) !! i = Some t →
     Engine.tasks (Engine.after policy CHUNK_SIZES handlers history) !! j = Some u →
     Engine.is_active (Engine.status t) = true →
     Engine.is_active (Engine.status u) = true →
     Engine.target_ref t = Engine.target_ref u → i = j) ∧
  (∀ i t task_name items size,
     Engine.tasks (Engine.after policy CHUNK_SIZES handlers history) !! i = Some t →
     Engine.is_active (Engine.status t) = true →
     is_Some (handlers !! task_name) →
     match policy with
     | Engine.Merge =>
         ∃ st',
           Engine.submit policy CHUNK_SIZES handlers
             (Engine.after policy CHUNK_SIZES handlers history)
             task_name (Engine.target_ref t) items size = (Return i, st') ∧
           Engine.tasks st' !! i = Some (Engine.extend_payload items t)
     | Engine.Reject =>
         Engine.submit policy CHUNK_SIZES handlers
           (Engine.after policy CHUNK_SIZES handlers history)
           task_name (Engine.target_ref t) items size
         = (Raise DuplicateTargetError,
            Engine.after policy CHUNK_SIZES handlers history)
     end).
Proof.
  pose proof (after_store_ok policy CHUNK_SIZES handlers history) as Hok.
  split.
  - intros i j t u Ht Hu Hat Hau Htarget.
    pose proof (Hok i t Ht Hat) as Hi. pose proof (Hok j u Hu Hau) as Hj.
    congruence.
  - intros i t task_name items size Ht Hact Hreg.
    unfold Engine.submit.
    rewrite (proj2 (contains_true handlers task_name) Hreg). simpl.
    rewrite (Hok i t Ht Hact).
    destruct policy; [|done].
    eexists. split; [done|]. simpl.
    rewrite lookup_alter. rewrite decide_True by done. by rewrite Ht.
Qed.

Lemma one_active_task_per_target_witness :
  ∃ st',
    Engine.submit Engine.Merge Sample.CHUNK_SIZES Sample.handlers
      (Engine.after Engine.Merge Sample.CHUNK_SIZES Sample.handlers Sample.history)
      "task_assign_analyses" "worksheet-1" ["a3"] None = (Return 0%nat, st') ∧
    Engine.tasks st' !! 0%nat
    = Some (Engine.new_task 0 "task_assign_analyses" "worksheet-1"
              ["a1"; "a2"; "a3"] 5).
Proof.
  destruct (one_active_task_per_target Engine.Merge Sample.CHUNK_SIZES
              Sample.handlers Sample.history) as [_ Hsecond].
  apply (Hsecond 0%nat
           (Engine.new_task 0 "task_assign_analyses" "worksheet-1"
              ["a1"; "a2"] 5)
           "task_assign_analyses" ["a3"] None).
  - vm_compute. reflexivity.
  - reflexivity.
  - exists Sample.assign_handler. vm_compute. reflexivity.
Defined.

Example second_submission_rejected :
  (Engine.submit Engine.Reject Sample.CHUNK_SIZES Sample.handlers
     (Engine.after Engine.Reject Sample.CHUNK_SIZES Sample.handlers Sample.history)
     "task_assign_analyses" "worksheet-1" ["a3"] None).1
  = Raise DuplicateTargetError.
Proof. vm_compute. reflexivity. Qed.

(** * Further properties *)

(** ** senaite/queue/__init__.py *)

(** Different actions have different task names. *)
Theorem get_action_task_name_inj (action1 action2 : string) :
  Queue.get_action_task_name action1 = Queue.get_action_task_name action2 →
  action1 = action2.
Proof. unfold Queue.get_action_task_name. apply (inj _). Qed.

Lemma get_action_task_name_inj_witness : "submit" = "submit".
Proof. apply (get_action_task_name_inj "submit" "submit"). reflexivity. Defined.

(** [get_chunk_size] raises only [KeyError("default")], and does so exactly
    when the configuration has neither the task name nor ["default"]. *)
Theorem get_chunk_size_KeyError (CHUNK_SIZES : gmap string Z)
  (task_name : string) (e : exn) :
  Queue.get_chunk_size CHUNK_SIZES task_name = Raise e ↔
  e = KeyError "default" ∧ CHUNK_SIZES !! task_name = None ∧
  CHUNK_SIZES !! "default" = None.
Proof.
  unfold Queue.get_chunk_size.
  destruct (contains CHUNK_SIZES task_name) eqn:Hin.
  - apply contains_true in Hin as [v Hv]. rewrite (getitem_Some _ _ _ Hv).
    split; [done|]. intros (_ & Hnone & _). congruence.
  - apply contains_false in Hin. unfold getitem.
    destruct (CHUNK_SIZES !! "default") as [d|] eqn:Hd.
    + split; [done|]. by intros (_ & _ & ?).
    + split; [by intros [= <-]|]. by intros (-> & _ & _).
Qed.

Lemma get_chunk_size_KeyError_witness :
  Queue.get_chunk_size {[ "task_assign_analyses" := 5 ]} "task_action_submit"
  = Raise (KeyError "default").
Proof.
  apply (get_chunk_size_KeyError {[ "task_assign_analyses" := 5 ]}
           "task_action_submit" (KeyError "default")).
  split_and!; [reflexivity|vm_compute; reflexivity|vm_compute; reflexivity].
Defined.

(** The [kind]s that [initialize] registers, in order. *)
Definition registered_kinds {T C F} (effects : list (Queue.InitEffect T C F))
  : list string :=
  omap (λ effect, match effect with
                  | Queue.ContentInit_initialize init => Some (Queue.kind init)
                  | Queue.LoggerInfo _ => None
                  end) effects.

(** The content types that [initialize] registers, in order. *)
Definition registered_types {T C F} (effects : list (Queue.InitEffect T C F))
  : list T :=
  mjoin (omap (λ effect, match effect with
               | Queue.ContentInit_initialize init => Some (Queue.content_types init)
               | Queue.LoggerInfo _ => None
               end) effects).

Section initialize.
Context {A T C F : Type} (listTypes : string → list A)
  (process_types : list A → string → list T * list C * list F)
  (portal_type : T → string).

Lemma registered_kinds_initialize :
  registered_kinds (Queue.initialize listTypes process_types portal_type)
  = (λ atype, "senaite.queue: Add " +:+ portal_type atype) <$>
    take (length (process_types (listTypes Queue.PRODUCT_NAME) Queue.PRODUCT_NAME).1.2)
         (process_types (listTypes Queue.PRODUCT_NAME) Queue.PRODUCT_NAME).1.1.
Proof.
  unfold Queue.initialize, registered_kinds.
  destruct (process_types _ _) as [[cts cons] ftis]. simpl.
  revert cons. induction cts as [|atype cts IH]; intros [|con cons]; simpl;
    try done.
  by rewrite IH.
Qed.

(** Every content type that has a constructor is registered exactly once,
    in order, under the kind ["senaite.queue: Add <portal_type>"]; content
    types beyond the constructors are not registered. *)
Theorem initialize_registers_each_type :
  registered_types (Queue.initialize listTypes process_types portal_type)
  = take (length (process_types (listTypes Queue.PRODUCT_NAME) Queue.PRODUCT_NAME).1.2)
         (process_types (listTypes Queue.PRODUCT_NAME) Queue.PRODUCT_NAME).1.1 ∧
  registered_kinds (Queue.initialize listTypes process_types portal_type)
  = (λ atype, "senaite.queue: Add " +:+ portal_type atype) <$>
    registered_types (Queue.initialize listTypes process_types portal_type).
Proof.
  assert (registered_types (Queue.initialize listTypes process_types portal_type)
          = take (length (process_types (listTypes Queue.PRODUCT_NAME)
                            Queue.PRODUCT_NAME).1.2)
                 (process_types (listTypes Queue.PRODUCT_NAME)
                    Queue.PRODUCT_NAME).1.1) as Htypes.
  { unfold Queue.initialize, registered_types.
    destruct (process_types _ _) as [[cts cons] ftis]. simpl.
    revert cons. induction cts as [|atype cts IH]; intros [|con cons]; simpl;
      try done.
    by rewrite IH. }
  split; [done|]. by rewrite Htypes, registered_kinds_initialize.
Qed.

(** Content types with different portal types are registered under
    different kinds. *)
Theorem initialize_kinds_distinct :
  NoDup (portal_type <$>
         (process_types (listTypes Queue.PRODUCT_NAME) Queue.PRODUCT_NAME).1.1) →
  NoDup (registered_kinds (Queue.initialize listTypes process_types portal_type)).
Proof.
  intros Hnodup. rewrite registered_kinds_initialize.
  rewrite (list_fmap_compose portal_type (String.app "senaite.queue: Add ")).
  apply NoDup_fmap_2; [apply _|].
  rewrite fmap_take. eapply sublist_NoDup; [done|apply sublist_take].
Qed.

End initialize.

Lemma initialize_kinds_distinct_witness :
  NoDup (registered_kinds
           (Queue.initialize (λ _, ["QueueTask"; "QueueFolder"])
              (λ types _, (types, ["addQueueTask"; "addQueueFolder"], ["fti"]))
              id)).
Proof.
  apply (initialize_kinds_distinct (λ _, ["QueueTask"; "QueueFolder"])
           (λ types _, (types, ["addQueueTask"; "addQueueFolder"], ["fti"]))
           id).
  apply (bool_decide_unpack _). vm_compute. exact I.
Defined.

(** ** senaite/queue/monkeys/content/worksheet.py *)

Lemma filter_complement {A} (P Q : A → Prop) `{∀ x, Decision (P x)}
  `{∀ x, Decision (Q x)} (l : list A) :
  (∀ x, Q x ↔ ¬ P x) → filter P l ++ filter Q l ≡ₚ l.
Proof.
  intros HPQ. induction l as [|x l IH]; [done|].
  rewrite !filter_cons. destruct (decide (P x)) as [HP|HP].
  - rewrite decide_False by (rewrite HPQ; tauto). simpl. by rewrite IH.
  - rewrite decide_True by (by rewrite HPQ).
    rewrite <- Permutation_middle. by rewrite IH.
Qed.

Lemma pop_snoc {A} (l l' : list A) x : pop l = Return (x, l') → l = l' ++ [x].
Proof.
  unfold pop. destruct (last l) as [y|] eqn:Hlast; [|done].
  apply last_Some in Hlast as [k ->]. intros [= <- <-].
  rewrite length_app. simpl.
  by rewrite (take_app_length' k [y]) by lia.
Qed.

Section worksheet_more.
Import Worksheet.
Context {Brain Obj : Type} (portal : Portal Brain Obj).

(** The analyses a call takes care of. *)
Definition handled (c : Call Obj) : list Obj :=
  match c with
  | AddAnalysis analysis _ => [analysis]
  | QueueAssignAnalyses analyses _ => analyses
  end.

Lemma handled_flush_queue ws_template (e : Effects) :
  concat (handled <$> flush_queue ws_template e)
  = concat (handled <$> calls e) ++ to_queue e.
Proof.
  unfold flush_queue. destruct (to_queue e) as [|an q].
  - by rewrite app_nil_r.
  - rewrite fmap_app, concat_app. simpl. by rewrite app_nil_r.
Qed.

Lemma handled_added {X} (f : X → Obj) (position : option Z) (l : list X) :
  concat (handled <$> ((λ x, AddAnalysis (f x) position) <$> l)) = f <$> l.
Proof. induction l as [|x l IH]; csimpl; [done|]. by rewrite IH. Qed.

(** A queue call in [flush_queue], when the calls before are all
    [addAnalysis]: it is the last call, for the given template, with the
    whole non-empty [to_queue] list. *)
Lemma flush_queue_submission ws_template (e : @Effects Obj) i ans t :
  (∀ c, c ∈ calls e → ∃ an position, c = AddAnalysis an position) →
  flush_queue ws_template e !! i = Some (QueueAssignAnalyses ans t) →
  ans = to_queue e ∧ ans ≠ [] ∧ t = ws_template ∧
  length (flush_queue ws_template e) = S i.
Proof.
  intros Hcalls. unfold flush_queue.
  assert (calls e !! i ≠ Some (QueueAssignAnalyses ans t)) as Hnot.
  { intros Hin%list_elem_of_lookup_2.
    by destruct (Hcalls _ Hin) as (? & ? & ?). }
  destruct (to_queue e) as [|an q] eqn:Hq; [done|].
  intros Hi. apply lookup_app_Some in Hi as [Hi|[Hlen Hi]]; [done|].
  apply list_lookup_singleton_Some in Hi as [Hi [= <- <-]].
  rewrite length_app. simpl. split_and!; try done. lia.
Qed.

(** *** [addAnalyses] *)

Lemma addAnalyses_closed (analyses : list Brain) :
  addAnalyses portal analyses
  = ((λ a, AddAnalysis (get_object portal a) None) <$>
     filter (λ a, api_is_queue_enabled portal "task_assign_analyses" = false ∨
                  IRequestAnalysis_providedBy portal (get_object portal a) = false)
            analyses) ++
    match get_object portal <$>
          filter (λ a, api_is_queue_enabled portal "task_assign_analyses" = true ∧
                       IRequestAnalysis_providedBy portal (get_object portal a) = true)
                 analyses
    with
    | [] => []
    | an :: q => [QueueAssignAnalyses (an :: q) None]
    end.
Proof.
  unfold addAnalyses. rewrite add_one_fold. unfold flush_queue. simpl.
  destruct (get_object portal <$> _); [by rewrite app_nil_r|done].
Qed.

(** The calls of [addAnalyses], in closed form: the analyses that go
    straight to the worksheet are added in the order given; the request
    analyses, when the queue is on, follow in one submission that keeps
    their order. *)
Theorem addAnalyses_order (analyses : list Brain) :
  addAnalyses portal analyses
  = ((λ a, AddAnalysis (get_object portal a) None) <$>
     filter (λ a, api_is_queue_enabled portal "task_assign_analyses" = false ∨
                  IRequestAnalysis_providedBy portal (get_object portal a) = false)
            analyses) ++
    match get_object portal <$>
          filter (λ a, api_is_queue_enabled portal "task_assign_analyses" = true ∧
                       IRequestAnalysis_providedBy portal (get_object portal a) = true)
                 analyses
    with
    | [] => []
    | an :: q => [QueueAssignAnalyses (an :: q) None]
    end.
Proof. apply addAnalyses_closed. Qed.

(** [addAnalyses] takes care of every analysis it is given exactly once:
    none is left out and none is both added and submitted. *)
Theorem addAnalyses_each_once (analyses : list Brain) :
  concat (handled <$> addAnalyses portal analyses)
  ≡ₚ get_object portal <$> analyses.
Proof.
  unfold addAnalyses. rewrite handled_flush_queue, add_one_fold. simpl.
  rewrite handled_added, <- fmap_app. apply fmap_Permutation.
  apply filter_complement. intros a.
  destruct (api_is_queue_enabled portal "task_assign_analyses"),
    (IRequestAnalysis_providedBy portal (get_object portal a));
    intuition congruence.
Qed.

(** With the queue on, a non-empty collection of request analyses becomes
    one single submission holding all of them, in order. *)
Theorem addAnalyses_single_submission (analyses : list Brain) :
  api_is_queue_enabled portal "task_assign_analyses" = true →
  analyses ≠ [] →
  (∀ a, a ∈ analyses →
        IRequestAnalysis_providedBy portal (get_object portal a) = true) →
  addAnalyses portal analyses
  = [QueueAssignAnalyses (get_object portal <$> analyses) None].
Proof.
  intros Hon Hne Hall. rewrite addAnalyses_closed.
  assert (∀ P `{∀ a, Decision (P a)},
            (∀ a, a ∈ analyses → P a) → filter P analyses = analyses) as Hkeep.
  { clear. intros P ? HP. induction analyses as [|a l IH]; [done|].
    rewrite filter_cons_True by (apply HP; by left).
    rewrite IH; [done|]. intros b Hb. apply HP. by right. }
  assert (∀ P `{∀ a, Decision (P a)},
            (∀ a, a ∈ analyses → ¬ P a) → filter P analyses = []) as Hdrop.
  { clear. intros P ? HP. induction analyses as [|a l IH]; [done|].
    rewrite filter_cons_False by (apply HP; by left).
    apply IH. intros b Hb. apply HP. by right. }
  rewrite Hdrop, Hkeep.
  - destruct analyses; [done|]. done.
  - intros a Ha. split; [done|by apply Hall].
  - intros a Ha [Hoff|Href]; [congruence|]. rewrite (Hall a Ha) in Href. done.
Qed.

(** [addAnalyses] calls [queue_assign_analyses] at most once, as its last
    call, without a template and never with an empty list. *)
Theorem addAnalyses_submission_last (analyses : list Brain) i ans t :
  addAnalyses portal analyses !! i = Some (QueueAssignAnalyses ans t) →
  ans ≠ [] ∧ t = None ∧ length (addAnalyses portal analyses) = S i.
Proof.
  unfold addAnalyses. intros Hi.
  apply flush_queue_submission in Hi as (_ & ? & ? & ?); [done|].
  rewrite add_one_fold. simpl.
  intros c (a & -> & _)%list_elem_of_fmap. by eauto.
Qed.

End worksheet_more.

Lemma addAnalyses_single_submission_witness :
  Worksheet.addAnalyses (Sample.portal Sample.catalog true) ["a1"; "b1"; "a2"]
  = [Worksheet.QueueAssignAnalyses ["a1"; "b1"; "a2"] None].
Proof.
  apply (addAnalyses_single_submission (Sample.portal Sample.catalog true)
           ["a1"; "b1"; "a2"]).
  - reflexivity.
  - discriminate.
  - apply Forall_forall. repeat constructor.
Defined.

Lemma addAnalyses_submission_last_witness :
  ["a1"; "b1"; "a2"] ≠ [] ∧ (None : option Worksheet.WorksheetTemplate) = None ∧
  length (Worksheet.addAnalyses (Sample.portal Sample.catalog true)
            Sample.catalog) = 2%nat.
Proof.
  apply (addAnalyses_submission_last (Sample.portal Sample.catalog true)
           Sample.catalog 1).
  reflexivity.
Defined.

Section worksheet_routine.
Import Worksheet.
Context {Brain Obj : Type} (portal : Portal Brain Obj).

(** *** The grouping loop, case by case *)

Definition flow_groups (flow : @Flow Obj) : Groups :=
  match flow with Next g | Break g => g end.

(** An iteration of the grouping loop leaves the groups alone, or files the
    analysis of an unclaimed brain that the template's instrument and
    method allow: under a slot popped from the stack or already held by its
    request, or under the slot its request has on the worksheet. *)
Lemma group_brain_cases instrument method num brain g flow :
  group_brain portal instrument method num brain g = Return flow →
  flow_groups flow = g ∨
  (api_is_queued portal brain = false ∧
   (truthy_uid instrument = true →
    isInstrumentAllowed portal (get_object portal brain)
      (uid_or_empty instrument) = true) ∧
   (truthy_uid method = true →
    isMethodAllowed portal (get_object portal brain)
      (uid_or_empty method) = true) ∧
   ((∃ slot avail,
       (pop (available_slots g) = Return (slot, avail) ∨
        (ar_slots g !! getRequestID portal brain = Some slot ∧
         avail = available_slots g)) ∧
       flow_groups flow
       = assign_slot (getRequestID portal brain) (get_object portal brain)
           slot avail g) ∨
    (∃ z, get_slot_position portal (get_object portal brain) = Some z ∧
          z ≠ 0 ∧ num ≠ 0%nat ∧
          flow_groups flow
          = {| available_slots := available_slots g;
               ar_analyses := append_analysis (getRequestID portal brain)
                                (get_object portal brain) (ar_analyses g);
               ar_slots := ar_slots g;
               ar_fixed_slots := <[getRequestID portal brain := z]>
                                   (ar_fixed_slots g) |}))).
Proof.
  unfold group_brain.
  destruct (api_is_queued portal brain) eqn:Hq; [intros [= <-]; by left|].
  destruct (truthy_uid instrument) eqn:Hi; simpl;
    [destruct (isInstrumentAllowed _ _ _) eqn:Hia; simpl;
       [|intros [= <-]; by left]|];
    (destruct (truthy_uid method) eqn:Hm; simpl;
       [destruct (isMethodAllowed _ _ _) eqn:Hma; simpl;
          [|intros [= <-]; by left]|]);
    (destruct (ar_slots g !! getRequestID portal brain) as [held|] eqn:Hheld;
       simpl;
       [destruct (bool_decide (held ≠ 0)) eqn:Hheld0; simpl;
          [intros [= <-]; right; split_and!; try done; left;
           exists held, (available_slots g); split; [by right|done]|]|]);
    (destruct (bool_decide (length (available_slots g) = 0%nat)) eqn:Hlen;
     destruct (bool_decide (num = 0%nat)) eqn:Hnum; simpl;
     try (intros [= <-]; by left);
     try (destruct (pop (available_slots g)) as [[slot avail]|] eqn:Hpop;
          simpl; [|done];
          intros [= <-]; right; split_and!; try done; left;
          exists slot, avail; split; [by left|done]);
     (destruct (get_slot_position portal (get_object portal brain))
        as [z|] eqn:Hz; simpl;
      [destruct (bool_decide (z ≠ 0)) eqn:Hz0; simpl;
         [intros [= <-]; right; split_and!; try done; right; exists z;
          apply bool_decide_eq_true in Hz0; apply bool_decide_eq_false in Hnum;
          by split_and!|]|];
      try (intros [= <-]; by left);
      (destruct (pop (available_slots g)) as [[slot avail]|] eqn:Hpop;
       simpl; [|done];
       intros [= <-]; right; split_and!; try done; left;
       exists slot, avail; split; [by left|done]))).
Qed.

(** An analysis of request [arid] that is the object of a catalog brain,
    unclaimed and allowed by the template's instrument and method. *)
Definition from_catalog (instrument method : option string)
  (analyses : list Brain) (arid : string) (an : Obj) : Prop :=
  ∃ brain, brain ∈ analyses ∧ get_object portal brain = an ∧
    getRequestID portal brain = arid ∧
    api_is_queued portal brain = false ∧
    (truthy_uid instrument = true →
     isInstrumentAllowed portal an (uid_or_empty instrument) = true) ∧
    (truthy_uid method = true →
     isMethodAllowed portal an (uid_or_empty method) = true).

(** Where the content of the groups comes from: each grouped analysis is
    the object of a catalog brain of that request, unclaimed and allowed by
    the template's instrument and method; slots on the stack or given out
    are slots of the template; a fixed slot is the slot position of one of
    the request's analyses. *)
Definition groups_sourced (instrument method : option string)
  (template_slots : list Z) (analyses : list Brain) (g : Groups) : Prop :=
  (∀ arid ans an, ar_analyses g !! arid = Some ans → an ∈ ans →
     from_catalog instrument method analyses arid an) ∧
  (∀ arid z, ar_slots g !! arid = Some z → z ∈ template_slots) ∧
  (∀ z, z ∈ available_slots g → z ∈ template_slots) ∧
  (∀ arid z, ar_fixed_slots g !! arid = Some z →
     ∃ brain, brain ∈ analyses ∧ getRequestID portal brain = arid ∧
       get_slot_position portal (get_object portal brain) = Some z).

Lemma groups_sourced_append instrument method (analyses : list Brain) brain d :
  brain ∈ analyses → api_is_queued portal brain = false →
  (truthy_uid instrument = true →
   isInstrumentAllowed portal (get_object portal brain)
     (uid_or_empty instrument) = true) →
  (truthy_uid method = true →
   isMethodAllowed portal (get_object portal brain)
     (uid_or_empty method) = true) →
  (∀ arid ans an, d !! arid = Some ans → an ∈ ans →
     from_catalog instrument method analyses arid an) →
  ∀ arid ans an,
    append_analysis (getRequestID portal brain) (get_object portal brain) d
      !! arid = Some ans → an ∈ ans →
    from_catalog instrument method analyses arid an.
Proof.
  intros Hin Hq Hi Hm Hold arid ans an Hans Han.
  apply lookup_append_analysis in Hans as [[-> ->]|[Hne Hans]]; [|by eauto].
  apply elem_of_app in Han as [Han|Han%list_elem_of_singleton].
  - destruct (d !! getRequestID portal brain) eqn:Hd; simpl in Han;
      [by eauto|by apply elem_of_nil in Han].
  - subst an. exists brain. by split_and!.
Qed.

Lemma group_brain_sourced instrument method num slots analyses brain g flow :
  brain ∈ analyses →
  groups_sourced instrument method slots analyses g →
  group_brain portal instrument method num brain g = Return flow →
  groups_sourced instrument method slots analyses (flow_groups flow).
Proof.
  intros Hin (Han & Hslots & Havail & Hfixed) Hrun.
  apply group_brain_cases in Hrun
    as [->|(Hq & Hi & Hm & [(slot & avail & Hslot & ->)|(z & Hz & _ & _ & ->)])];
    [done| |].
  - assert (slot ∈ slots ∧ ∀ z, z ∈ avail → z ∈ slots) as [Hs Ha].
    { destruct Hslot as [Hpop%pop_snoc|[Hheld ->]]; [|by eauto].
      split; [|intros z Hz]; apply Havail; rewrite Hpop; set_solver. }
    split_and!; simpl; [by apply groups_sourced_append| |done|done].
    intros arid z. rewrite lookup_insert. case_decide; [|by eauto].
    by intros [= <-].
  - split_and!; simpl; [by apply groups_sourced_append|done|done|].
    intros arid z'. rewrite lookup_insert. case_decide as Heq; [|by eauto].
    intros [= <-]. subst arid. by exists brain.
Qed.

Lemma group_analyses_sourced instrument method num slots all analyses g g' :
  analyses ⊆ all →
  groups_sourced instrument method slots all g →
  group_analyses portal instrument method num analyses g = Return g' →
  groups_sourced instrument method slots all g'.
Proof.
  revert g. induction analyses as [|brain rest IH]; intros g Hsub Hsrc; simpl.
  - by intros [= <-].
  - destruct (group_brain portal instrument method num brain g)
      as [flow|] eqn:Hflow; simpl; [|done].
    pose proof (group_brain_sourced instrument method num slots all brain g
                  flow) as Hstep.
    destruct flow as [g1|g1]; simpl in Hstep.
    + apply IH; [set_solver|]. apply Hstep; [set_solver|done|done].
    + intros [= <-]. apply Hstep; [set_solver|done|done].
Qed.

Lemma routine_groups_sourced wst g :
  routine_groups portal wst = Return (Some g) →
  groups_sourced (getRawInstrument wst) (getRawRestrictToMethod wst)
    (resolve_available_slots portal wst) (bac portal (getService wst)) g.
Proof.
  unfold routine_groups.
  destruct (bac portal (getService wst)) as [|brain rest] eqn:Hbac; [done|].
  destruct (group_analyses _ _ _ _ _ _) as [g'|] eqn:Hg; simpl; [|done].
  intros [= ->]. eapply group_analyses_sourced; [done| |exact Hg].
  split_and!; simpl.
  - intros arid ans an H. by rewrite lookup_empty in H.
  - intros arid z H. by rewrite lookup_empty in H.
  - intros z. unfold sort_reverse. by rewrite merge_sort_Permutation.
  - intros arid z H. by rewrite lookup_empty in H.
Qed.

(** *** Each brain is grouped at most once *)

Lemma values_append_analysis arid obj (d : gmap string (list Obj)) :
  concat (values (append_analysis arid obj d)) ≡ₚ obj :: concat (values d).
Proof.
  unfold append_analysis, values.
  destruct (d !! arid) as [ans|] eqn:Hd; simpl.
  - rewrite <- insert_delete_eq.
    rewrite map_to_list_insert by apply lookup_delete_eq.
    rewrite <- (map_to_list_delete d arid ans Hd). csimpl.
    rewrite <- app_assoc. simpl. by rewrite <- Permutation_middle.
  - by rewrite map_to_list_insert.
Qed.

Lemma group_brain_once instrument method num brain g flow :
  group_brain portal instrument method num brain g = Return flow →
  ∃ picked, picked `sublist_of` [brain] ∧
    concat (values (ar_analyses (flow_groups flow)))
    ≡ₚ concat (values (ar_analyses g)) ++ (get_object portal <$> picked).
Proof.
  intros Hrun. apply group_brain_cases in Hrun
    as [->|(_ & _ & _ & [(slot & avail & _ & ->)|(z & _ & _ & _ & ->)])].
  - exists []. split; [apply sublist_nil_l|]. by rewrite app_nil_r.
  - exists [brain]. split; [done|]. csimpl.
    rewrite values_append_analysis. apply Permutation_cons_append.
  - exists [brain]. split; [done|]. csimpl.
    rewrite values_append_analysis. apply Permutation_cons_append.
Qed.

Lemma group_analyses_once instrument method num analyses g g' :
  group_analyses portal instrument method num analyses g = Return g' →
  ∃ picked, picked `sublist_of` analyses ∧
    concat (values (ar_analyses g'))
    ≡ₚ concat (values (ar_analyses g)) ++ (get_object portal <$> picked).
Proof.
  revert g. induction analyses as [|brain rest IH]; intros g; simpl.
  - intros [= <-]. exists []. split; [done|]. by rewrite app_nil_r.
  - destruct (group_brain portal instrument method num brain g)
      as [flow|] eqn:Hflow; simpl; [|done].
    destruct (group_brain_once _ _ _ _ _ _ Hflow) as (first & Hfirst & Hperm).
    destruct flow as [g1|g1]; simpl in Hperm.
    + intros (others & Hothers & Hperm')%IH.
      exists (first ++ others). split.
      * by apply (sublist_app first [brain] others rest).
      * rewrite Hperm', Hperm, fmap_app. by rewrite app_assoc.
    + intros [= <-]. exists first. split; [|done].
      apply (sublist_app first [brain] [] rest) in Hfirst;
        [|apply sublist_nil_l].
      by rewrite app_nil_r in Hfirst.
Qed.

(** The analyses in the groups are, up to their order, the objects of
    brains picked from the catalog result one by one. *)
Lemma routine_groups_once wst g :
  routine_groups portal wst = Return (Some g) →
  concat (values (ar_analyses g))
  ⊆+ get_object portal <$> bac portal (getService wst).
Proof.
  unfold routine_groups.
  destruct (bac portal (getService wst)) as [|brain rest] eqn:Hbac; [done|].
  destruct (group_analyses _ _ _ _ _ _) as [g'|] eqn:Hg; simpl; [|done].
  intros [= ->].
  apply group_analyses_once in Hg as (picked & Hsub & ->).
  apply (fmap_sublist (get_object portal)), sublist_submseteq in Hsub.
  simpl. unfold values. rewrite map_to_list_empty. exact Hsub.
Qed.

(** *** The adding loop in closed form *)

(** [ar_analyses[ar_id]] for a grouped request. *)
Definition group_of (g : @Groups Obj) (ar_id : string) : list Obj :=
  default [] (ar_analyses g !! ar_id).

(** The slot each request of [ar_ids] is given, in order: its fixed slot,
    or else the next one popped from [slots]. *)
Fixpoint assigned_slots (fixed : gmap string Z) (ar_ids : list string)
  (slots : list Z) : list Z :=
  match ar_ids with
  | [] => []
  | ar_id :: rest =>
      if negb (truthy_slot (fixed !! ar_id)) then
        match pop slots with
        | Return (slot, slots') => slot :: assigned_slots fixed rest slots'
        | Raise _ => []
        end
      else default 0 (fixed !! ar_id) :: assigned_slots fixed rest slots
  end.

Lemma add_regular_closed qe g ar_ids slots e e' :
  add_regular portal qe g ar_ids slots e = Return e' →
  length (assigned_slots (ar_fixed_slots g) ar_ids slots) = length ar_ids ∧
  calls e' = calls e ++
    concat (zip_with
              (λ ar_id slot,
                 (λ an, AddAnalysis an (Some slot)) <$>
                 filter (λ an, IRequestAnalysis_providedBy portal an = false ∨
                               qe = false) (group_of g ar_id))
              ar_ids (assigned_slots (ar_fixed_slots g) ar_ids slots)) ∧
  to_queue e' = to_queue e ++
    concat ((λ ar_id,
               filter (λ an, IRequestAnalysis_providedBy portal an = true ∧
                             qe = true) (group_of g ar_id)) <$> ar_ids).
Proof.
  revert slots e. induction ar_ids as [|ar_id rest IH]; intros slots e; simpl.
  - intros [= <-]. by rewrite !app_nil_r.
  - unfold getitem, group_of.
    destruct (negb (truthy_slot (ar_fixed_slots g !! ar_id)));
      [destruct (pop slots) as [[slot slots']|]; simpl; [|done]|simpl];
      (destruct (ar_analyses g !! ar_id) as [ans|] eqn:Hans; simpl; [|done]);
      intros (Hlen & Hcalls & Hqueue)%IH;
      rewrite add_analysis_fold in Hcalls, Hqueue; simpl in *;
      rewrite Hlen, Hcalls, Hqueue, <- !app_assoc; done.
Qed.

Lemma elem_of_concat_zip_with {A B X} (f : A → B → list X) l k x :
  x ∈ concat (zip_with f l k) ↔
  ∃ i a b, l !! i = Some a ∧ k !! i = Some b ∧ x ∈ f a b.
Proof.
  revert k. induction l as [|a l IH]; intros k; simpl.
  - split; [by intros ?%elem_of_nil|by intros (i & ? & ? & ? & _)].
  - destruct k as [|b k]; simpl.
    + split; [by intros ?%elem_of_nil|by intros (i & ? & ? & _ & ? & _)].
    + rewrite elem_of_app, IH. split.
      * intros [Hx|(i & a' & b' & ? & ? & ?)]; [by exists 0%nat, a, b|].
        by exists (S i), a', b'.
      * intros ([|i] & a' & b' & Ha & Hb & Hx); simpl in *.
        -- injection Ha as <-. injection Hb as <-. by left.
        -- right. by exists i, a', b'.
Qed.

Lemma elem_of_concat_fmap {A X} (f : A → list X) (l : list A) x :
  x ∈ concat (f <$> l) ↔ ∃ a, a ∈ l ∧ x ∈ f a.
Proof.
  induction l as [|a l IH]; csimpl.
  - split; [by intros ?%elem_of_nil|by intros (? & ?%elem_of_nil & _)].
  - rewrite elem_of_app, IH. split.
    + intros [?|(a' & ? & ?)]; [exists a|exists a']; split; try done;
        [by left|by right].
    + intros (a' & [->|?]%elem_of_cons & ?); [by left|right; by exists a'].
Qed.

(** The [addAnalysis] calls and the queue submission of the routine for
    the groups [g]. *)
Definition routine_adds (qe : bool) (g : @Groups Obj) : list (Call Obj) :=
  concat (zip_with
            (λ ar_id slot,
               (λ an, AddAnalysis an (Some slot)) <$>
               filter (λ an, IRequestAnalysis_providedBy portal an = false ∨
                             qe = false) (group_of g ar_id))
            (sorted_ids (keys (ar_analyses g)))
            (assigned_slots (ar_fixed_slots g)
               (sorted_ids (keys (ar_analyses g)))
               (sort_reverse (values (ar_slots g))))).

Definition routine_submission (qe : bool) (g : @Groups Obj) : list Obj :=
  concat ((λ ar_id,
             filter (λ an, IRequestAnalysis_providedBy portal an = true ∧
                           qe = true) (group_of g ar_id))
          <$> sorted_ids (keys (ar_analyses g))).

(** The routine never raises, and its calls are those of the closed form. *)
Lemma routine_closed wst :
  ∃ og, routine_groups portal wst = Return og ∧
    match og with
    | None => _apply_worksheet_template_routine_analyses portal wst = Return []
    | Some g =>
        _apply_worksheet_template_routine_analyses portal wst
        = Return (flush_queue (Some wst)
            {| calls := routine_adds
                          (api_is_queue_enabled portal "task_assign_analyses") g;
               to_queue := routine_submission
                          (api_is_queue_enabled portal "task_assign_analyses") g |}) ∧
        length (assigned_slots (ar_fixed_slots g)
                  (sorted_ids (keys (ar_analyses g)))
                  (sort_reverse (values (ar_slots g))))
        = length (sorted_ids (keys (ar_analyses g)))
    end.
Proof.
  destruct (routine_runs portal wst) as (og & Hog & Hrun).
  exists og. split; [done|]. destruct og as [g|]; [|by destruct Hrun].
  destruct Hrun as (_ & e0 & Hrun & _). revert Hrun.
  unfold _apply_worksheet_template_routine_analyses. rewrite Hog. simpl.
  destruct (add_regular _ _ _ _ _ _) as [e|] eqn:Hadd; simpl; [|done].
  intros _. apply add_regular_closed in Hadd as (Hlen & Hcalls & Hqueue).
  split; [|done]. do 2 f_equal. destruct e as [cs q]. simpl in *.
  by rewrite Hcalls, Hqueue.
Qed.

Lemma elem_of_routine_adds qe g c :
  c ∈ routine_adds qe g ↔
  ∃ i ar_id slot an,
    sorted_ids (keys (ar_analyses g)) !! i = Some ar_id ∧
    assigned_slots (ar_fixed_slots g) (sorted_ids (keys (ar_analyses g)))
      (sort_reverse (values (ar_slots g))) !! i = Some slot ∧
    an ∈ group_of g ar_id ∧
    (IRequestAnalysis_providedBy portal an = false ∨ qe = false) ∧
    c = AddAnalysis an (Some slot).
Proof.
  unfold routine_adds. rewrite elem_of_concat_zip_with. split.
  - intros (i & k & slot & Hk & Hslot & Hc).
    apply list_elem_of_fmap in Hc as (an & -> & [Hd Han]%list_elem_of_filter).
    by exists i, k, slot, an.
  - intros (i & k & slot & an & Hk & Hslot & Han & Hd & ->).
    exists i, k, slot. split_and!; try done.
    apply list_elem_of_fmap. exists an. split; [done|].
    by apply list_elem_of_filter.
Qed.

Lemma elem_of_routine_submission qe g an :
  an ∈ routine_submission qe g ↔
  ∃ ar_id, ar_id ∈ sorted_ids (keys (ar_analyses g)) ∧ an ∈ group_of g ar_id ∧
           IRequestAnalysis_providedBy portal an = true ∧ qe = true.
Proof.
  unfold routine_submission. rewrite elem_of_concat_fmap. split.
  - intros (k & Hk & [[Hp Hq] Han]%list_elem_of_filter). by exists k.
  - intros (k & Hk & Han & Hp & Hq). exists k. split; [done|].
    by apply list_elem_of_filter.
Qed.

Lemma elem_of_group_of g ar_id an :
  an ∈ group_of g ar_id →
  ∃ ans, ar_analyses g !! ar_id = Some ans ∧ an ∈ ans.
Proof.
  unfold group_of. destruct (ar_analyses g !! ar_id) as [ans|]; simpl.
  - by exists ans.
  - by intros ?%elem_of_nil.
Qed.

Lemma elem_of_assigned_slots fixed ar_ids slots slot :
  slot ∈ assigned_slots fixed ar_ids slots →
  slot ∈ slots ∨ ∃ ar_id, fixed !! ar_id = Some slot.
Proof.
  revert slots. induction ar_ids as [|k rest IH]; intros slots; simpl.
  - by intros ?%elem_of_nil.
  - destruct (fixed !! k) as [z|] eqn:Hz; simpl.
    + destruct (bool_decide (z ≠ 0)); simpl.
      * intros [->|Hin]%elem_of_cons; [right; by exists k|by apply IH].
      * destruct (pop slots) as [[s slots']|] eqn:Hpop;
          [|by intros ?%elem_of_nil].
        apply pop_snoc in Hpop as ->.
        intros [->|[Hin|?]%IH]%elem_of_cons; [left|left|by right];
          set_solver.
    + destruct (pop slots) as [[s slots']|] eqn:Hpop;
        [|by intros ?%elem_of_nil].
      apply pop_snoc in Hpop as ->.
      intros [->|[Hin|?]%IH]%elem_of_cons; [left|left|by right]; set_solver.
Qed.

Lemma assigned_slots_fixed fixed ar_ids slots i ar_id z slot :
  ar_ids !! i = Some ar_id → fixed !! ar_id = Some z → z ≠ 0 →
  assigned_slots fixed ar_ids slots !! i = Some slot → slot = z.
Proof.
  revert slots i. induction ar_ids as [|k rest IH]; intros slots i; [done|].
  intros Hi Hz Hz0. simpl.
  destruct i as [|i]; simpl in Hi.
  - injection Hi as ->. rewrite Hz. simpl.
    rewrite (bool_decide_eq_true_2 _ Hz0). simpl. by intros [= <-].
  - destruct (negb (truthy_slot (fixed !! k)));
      [destruct (pop slots) as [[s slots']|]; [|done]|]; simpl; by eapply IH.
Qed.

(** *** What the routine does *)

(** The worksheet-template routine never raises: its pops are guarded and
    its subscripts are keys of the dictionaries they index. *)
Theorem routine_never_raises wst :
  ∃ cs, _apply_worksheet_template_routine_analyses portal wst = Return cs.
Proof.
  destruct (routine_closed wst) as (og & _ & Hrun).
  destruct og as [g|]; [destruct Hrun as [-> _]|rewrite Hrun]; by eexists.
Qed.

(** The routine calls [queue_assign_analyses] at most once, as its last
    call, for the template it was given and never with an empty list. *)
Theorem routine_submission_last wst cs i ans t :
  _apply_worksheet_template_routine_analyses portal wst = Return cs →
  cs !! i = Some (QueueAssignAnalyses ans t) →
  ans ≠ [] ∧ t = Some wst ∧ length cs = S i.
Proof.
  destruct (routine_closed wst) as (og & _ & Hrun).
  destruct og as [g|]; [destruct Hrun as [-> _]|rewrite Hrun];
    intros [= <-] Hi; [|done].
  apply flush_queue_submission in Hi as (_ & ? & ? & ?); [done|]. simpl.
  intros c (j & k & slot & an & _ & _ & _ & _ & ->)%elem_of_routine_adds.
  by eauto.
Qed.

(** Every analysis the routine adds or submits is the object of a brain
    of the catalog result that no task has claimed and that the template's
    instrument and method, when set, allow. *)
Theorem routine_handles_allowed wst cs an :
  _apply_worksheet_template_routine_analyses portal wst = Return cs →
  an ∈ concat (handled <$> cs) →
  ∃ brain, brain ∈ bac portal (getService wst) ∧
    get_object portal brain = an ∧
    api_is_queued portal brain = false ∧
    (truthy_uid (getRawInstrument wst) = true →
     isInstrumentAllowed portal an (uid_or_empty (getRawInstrument wst)) = true) ∧
    (truthy_uid (getRawRestrictToMethod wst) = true →
     isMethodAllowed portal an (uid_or_empty (getRawRestrictToMethod wst)) = true).
Proof.
  destruct (routine_closed wst) as (og & Hog & Hrun).
  destruct og as [g|]; [destruct Hrun as [-> _]|rewrite Hrun];
    intros [= <-]; [|by intros ?%elem_of_nil].
  pose proof (routine_groups_sourced wst g Hog) as (Hsrc & _).
  rewrite handled_flush_queue. simpl.
  intros Hin.
  assert (∃ ar_id, an ∈ group_of g ar_id) as (k & Hk).
  { apply elem_of_app in Hin as [Hin|Hin].
    - apply elem_of_concat_fmap in Hin as (c & Hc & Han).
      apply elem_of_routine_adds in Hc
        as (i & k & slot & an' & _ & _ & Hk & _ & ->).
      apply list_elem_of_singleton in Han as ->. by exists k.
    - apply elem_of_routine_submission in Hin as (k & _ & Hk & _).
      by exists k. }
  apply elem_of_group_of in Hk as (ans & Hans & Han).
  destruct (Hsrc k ans an Hans Han) as (brain & ? & ? & _ & ? & ? & ?).
  by exists brain.
Qed.

(** A worksheet without routine analyses and a template without free
    slots: the routine adds nothing and submits nothing. *)
Theorem routine_without_slots wst :
  resolve_available_slots portal wst = [] →
  get_routine_analyses portal = [] →
  _apply_worksheet_template_routine_analyses portal wst = Return [].
Proof.
  intros Hslots Hempty.
  unfold _apply_worksheet_template_routine_analyses, routine_groups.
  rewrite Hslots, Hempty.
  destruct (bac portal (getService wst)) as [|brain rest]; [done|].
  assert (∀ analyses,
            group_analyses portal (getRawInstrument wst)
              (getRawRestrictToMethod wst) 0 analyses (empty_groups [])
            = Return (empty_groups [])) as ->.
  { induction analyses as [|b l IH]; [done|]. simpl.
    unfold group_brain.
    destruct (api_is_queued portal b); simpl; [done|].
    destruct (_ && _); simpl; [done|].
    destruct (_ && _); simpl; [done|]. done. }
  done.
Qed.

(** The submission of the routine lists the request analyses request by
    request, the requests in ascending order of their ids, each request's
    analyses in the order they were grouped; it is only made with the
    queue on. *)
Theorem routine_submission_order wst g cs ans t :
  routine_groups portal wst = Return (Some g) →
  _apply_worksheet_template_routine_analyses portal wst = Return cs →
  QueueAssignAnalyses ans t ∈ cs →
  api_is_queue_enabled portal "task_assign_analyses" = true ∧
  ans = concat ((λ ar_id,
                   filter (λ an, IRequestAnalysis_providedBy portal an = true)
                          (group_of g ar_id))
                <$> sorted_ids (keys (ar_analyses g))).
Proof.
  intros Hog. destruct (routine_closed wst) as (og & Hog' & Hrun).
  rewrite Hog in Hog'. injection Hog' as <-. destruct Hrun as [-> _].
  intros [= <-] [Hin|[Hne Heq]]%elem_of_flush_queue; simpl in *.
  { by apply elem_of_routine_adds in Hin as (? & ? & ? & ? & _ & _ & _ & _ & ?). }
  injection Heq as -> _. unfold routine_submission in *.
  destruct (api_is_queue_enabled portal "task_assign_analyses").
  - split; [done|]. f_equal. apply list_fmap_ext. intros _ k _.
    apply list_filter_iff. intros an. tauto.
  - exfalso. apply Hne. clear.
    induction (sorted_ids (keys (ar_analyses g))) as [|k l IH]; [done|].
    csimpl. rewrite IH, app_nil_r. apply filter_none. by intros an [_ ?].
Qed.

(** The analyses of one request that the routine adds all go to the same
    slot, and to the request's slot on the worksheet when it has one. *)
Theorem routine_request_one_slot wst g cs ar_id ans :
  routine_groups portal wst = Return (Some g) →
  _apply_worksheet_template_routine_analyses portal wst = Return cs →
  ar_analyses g !! ar_id = Some ans →
  ∃ slot,
    (∀ z, ar_fixed_slots g !! ar_id = Some z → slot = z) ∧
    (∀ an, an ∈ ans →
       IRequestAnalysis_providedBy portal an = false ∨
       api_is_queue_enabled portal "task_assign_analyses" = false →
       AddAnalysis an (Some slot) ∈ cs).
Proof.
  intros Hog. destruct (routine_closed wst) as (og & Hog' & Hrun).
  rewrite Hog in Hog'. injection Hog' as <-. destruct Hrun as [-> Hlen].
  intros [= <-] Hans.
  destruct (routine_groups_ok portal wst) as (og & Hog' & Hok).
  rewrite Hog in Hog'. injection Hog' as <-. destruct Hok as (_ & Hfixed & _).
  assert (ar_id ∈ sorted_ids (keys (ar_analyses g))) as Hin
    by (apply elem_of_sorted_keys; by eauto).
  apply list_elem_of_lookup_1 in Hin as [i Hi].
  destruct (lookup_lt_is_Some_2
              (assigned_slots (ar_fixed_slots g)
                 (sorted_ids (keys (ar_analyses g)))
                 (sort_reverse (values (ar_slots g)))) i) as [slot Hslot].
  { rewrite Hlen. by eapply lookup_lt_Some. }
  exists slot. split.
  - intros z Hz. eapply assigned_slots_fixed; eauto.
  - intros an Han Hdirect. apply elem_of_flush_queue. left. simpl.
    apply elem_of_routine_adds. exists i, ar_id, slot, an.
    split_and!; try done. unfold group_of. by rewrite Hans.
Qed.

(** The routine adds analyses only at slots of the template's free slots
    or at the slot position one of the catalog's analyses has on the
    worksheet. *)
Theorem routine_slots_from_template wst cs an position :
  _apply_worksheet_template_routine_analyses portal wst = Return cs →
  AddAnalysis an position ∈ cs →
  ∃ slot, position = Some slot ∧
    (slot ∈ resolve_available_slots portal wst ∨
     ∃ brain, brain ∈ bac portal (getService wst) ∧
       get_slot_position portal (get_object portal brain) = Some slot).
Proof.
  destruct (routine_closed wst) as (og & Hog & Hrun).
  destruct og as [g|]; [destruct Hrun as [-> _]|rewrite Hrun];
    intros [= <-]; [|by intros ?%elem_of_nil].
  pose proof (routine_groups_sourced wst g Hog) as (_ & Hslots & _ & Hfixed).
  intros [Hin|[_ ?]]%elem_of_flush_queue; [|done]. simpl in Hin.
  apply elem_of_routine_adds in Hin
    as (i & k & slot & an' & _ & Hslot & _ & _ & [= -> ->]).
  exists slot. split; [done|].
  apply list_elem_of_lookup_2, elem_of_assigned_slots in Hslot
    as [Hpop|[k' Hk']].
  - left. unfold sort_reverse, values in Hpop.
    rewrite merge_sort_Permutation in Hpop.
    apply list_elem_of_fmap in Hpop as ([k' z] & -> & Hkz).
    apply elem_of_map_to_list in Hkz. by eapply Hslots.
  - right. destruct (Hfixed k' slot Hk') as (brain & ? & _ & ?).
    by exists brain.
Qed.

Lemma handled_routine_adds {X} (f : X → list Obj) (xs : list X)
  (slots : list Z) :
  length slots = length xs →
  concat (handled <$>
          concat (zip_with (λ x slot, (λ an, AddAnalysis an (Some slot)) <$> f x)
                    xs slots))
  = concat (f <$> xs).
Proof.
  revert slots. induction xs as [|x xs IH]; intros [|slot slots] Hlen;
    try done; csimpl in *.
  rewrite fmap_app, concat_app, (handled_added id), list_fmap_id.
  rewrite IH by lia. done.
Qed.

Lemma group_of_sorted_keys g :
  group_of g <$> sorted_ids (keys (ar_analyses g)) ≡ₚ values (ar_analyses g).
Proof.
  unfold sorted_ids. rewrite merge_sort_Permutation.
  unfold keys, values, group_of. rewrite <- list_fmap_compose.
  erewrite list_fmap_ext; [done|]. intros i [k ans] Hi. simpl.
  apply list_elem_of_lookup_2, elem_of_map_to_list in Hi. by rewrite Hi.
Qed.

Lemma split_groups qe (groups : list (list Obj)) :
  concat (filter (λ an, IRequestAnalysis_providedBy portal an = false ∨
                        qe = false) <$> groups) ++
  concat (filter (λ an, IRequestAnalysis_providedBy portal an = true ∧
                        qe = true) <$> groups)
  ≡ₚ concat groups.
Proof.
  induction groups as [|ans groups IH]; [done|]. csimpl.
  rewrite <- IH.
  set (added := concat (filter _ <$> groups)).
  set (submitted := concat (filter _ <$> groups)).
  rewrite <- !app_assoc, (app_assoc added), (Permutation_app_comm added).
  rewrite <- !app_assoc, (app_assoc _ _ (added ++ submitted)).
  f_equiv. apply filter_complement.
  intros an. destruct (IRequestAnalysis_providedBy portal an), qe;
    intuition congruence.
Qed.

(** No brain of the catalog result is taken care of twice: the analyses
    the routine adds or submits are, counted with multiplicity, among the
    objects of the catalog result. *)
Theorem routine_each_at_most_once wst cs :
  _apply_worksheet_template_routine_analyses portal wst = Return cs →
  concat (handled <$> cs) ⊆+ get_object portal <$> bac portal (getService wst).
Proof.
  destruct (routine_closed wst) as (og & Hog & Hrun).
  destruct og as [g|]; [destruct Hrun as [-> Hlen]|rewrite Hrun];
    intros [= <-]; [|apply submseteq_nil_l].
  rewrite <- (routine_groups_once wst g Hog).
  rewrite handled_flush_queue. simpl.
  unfold routine_adds, routine_submission.
  rewrite handled_routine_adds by done.
  rewrite <- group_of_sorted_keys.
  rewrite <- (split_groups (api_is_queue_enabled portal "task_assign_analyses")
                (group_of g <$> sorted_ids (keys (ar_analyses g)))).
  by rewrite <- !list_fmap_compose.
Qed.

(** *** Slots for the requests, in order *)

Lemma values_insert (m : gmap string Z) k v :
  values (<[k:=v]> m) ⊆+ v :: values m.
Proof.
  unfold values. destruct (m !! k) as [v0|] eqn:Hk.
  - rewrite <- insert_delete_eq.
    rewrite map_to_list_insert by apply lookup_delete_eq.
    rewrite <- (map_to_list_delete m k v0 Hk). csimpl.
    by apply submseteq_skip, submseteq_cons.
  - by rewrite map_to_list_insert.
Qed.

(** The slots given out and the slots still on the stack are, counted
    with multiplicity, slots of the template. *)
Lemma group_brain_slots instrument method num template brain g flow :
  values (ar_slots g) ++ available_slots g ⊆+ template →
  group_brain portal instrument method num brain g = Return flow →
  values (ar_slots (flow_groups flow)) ++ available_slots (flow_groups flow)
  ⊆+ template.
Proof.
  intros Hacc Hrun. apply group_brain_cases in Hrun
    as [->|(_ & _ & _ & [(slot & avail & Hslot & ->)|(z & _ & _ & _ & ->)])];
    [done| |done]. simpl.
  destruct Hslot as [Hpop%pop_snoc|[Hheld ->]].
  - rewrite Hpop in Hacc. etrans; [|exact Hacc].
    etrans; [apply submseteq_skips_r, values_insert|].
    apply Permutation_submseteq. simpl. rewrite app_assoc.
    apply Permutation_cons_append.
  - by rewrite insert_id.
Qed.

Lemma group_analyses_slots instrument method num template analyses g g' :
  values (ar_slots g) ++ available_slots g ⊆+ template →
  group_analyses portal instrument method num analyses g = Return g' →
  values (ar_slots g') ++ available_slots g' ⊆+ template.
Proof.
  revert g. induction analyses as [|brain rest IH]; intros g Hacc; simpl.
  - by intros [= <-].
  - destruct (group_brain portal instrument method num brain g)
      as [flow|] eqn:Hflow; simpl; [|done].
    pose proof (group_brain_slots _ _ _ _ _ _ _ Hacc Hflow) as Hstep.
    destruct flow as [g1|g1]; simpl in Hstep; [by apply IH|].
    by intros [= <-].
Qed.

Lemma routine_groups_slots wst g :
  routine_groups portal wst = Return (Some g) →
  values (ar_slots g) ⊆+ resolve_available_slots portal wst.
Proof.
  unfold routine_groups.
  destruct (bac portal (getService wst)) as [|brain rest]; [done|].
  destruct (group_analyses _ _ _ _ _ _) as [g'|] eqn:Hg; simpl; [|done].
  intros [= ->].
  apply (group_analyses_slots _ _ _ (resolve_available_slots portal wst))
    in Hg.
  - etrans; [|exact Hg]. by apply submseteq_inserts_r.
  - simpl. unfold values, sort_reverse.
    by rewrite map_to_list_empty, merge_sort_Permutation.
Qed.

Lemma sort_reverse_strongly (l : list Z) : StronglySorted Z.ge (sort_reverse l).
Proof.
  apply Sorted_StronglySorted; [intros x y z; lia|].
  apply sort_reverse_descending.
Qed.

Lemma sort_reverse_strictly (l : list Z) :
  NoDup l → StronglySorted Z.gt (sort_reverse l).
Proof.
  intros Hnodup.
  assert (NoDup (sort_reverse l)) as Hnd
    by (unfold sort_reverse; by rewrite merge_sort_Permutation).
  pose proof (sort_reverse_strongly l) as Hsorted.
  induction Hsorted as [|x k Hk IH Hall]; [constructor|].
  apply NoDup_cons in Hnd as [Hx Hnd]. constructor; [by apply IH|].
  apply Forall_forall. intros y Hy.
  rewrite Forall_forall in Hall. specialize (Hall y Hy).
  assert (x ≠ y) by (by intros ->). lia.
Qed.

Lemma assigned_slots_popped fixed ar_ids slots i ar_id slot :
  ar_ids !! i = Some ar_id → fixed !! ar_id = None →
  assigned_slots fixed ar_ids slots !! i = Some slot → slot ∈ slots.
Proof.
  revert slots i. induction ar_ids as [|k rest IH]; intros slots i; [done|].
  intros Hi Hfree. simpl. destruct i as [|i]; simpl in Hi.
  - injection Hi as ->. rewrite Hfree. simpl.
    destruct (pop slots) as [[s slots']|] eqn:Hpop; [|done].
    apply pop_snoc in Hpop as ->. intros [= <-]. set_solver.
  - destruct (negb (truthy_slot (fixed !! k)));
      [destruct (pop slots) as [[s slots']|] eqn:Hpop; [|done]|]; simpl;
      intros Hslot; specialize (IH _ _ Hi Hfree Hslot); [|done].
    apply pop_snoc in Hpop as ->. set_solver.
Qed.

(** Slots are popped from the end of [slots]: of two requests without a
    fixed slot, the later one gets a slot that stands before the slot of
    the earlier one. *)
Lemma assigned_slots_order (R : relation Z) fixed ar_ids slots i j k1 k2 s1 s2 :
  StronglySorted R slots → (i < j)%nat →
  ar_ids !! i = Some k1 → ar_ids !! j = Some k2 →
  fixed !! k1 = None → fixed !! k2 = None →
  assigned_slots fixed ar_ids slots !! i = Some s1 →
  assigned_slots fixed ar_ids slots !! j = Some s2 →
  R s2 s1.
Proof.
  revert slots i j. induction ar_ids as [|k rest IH]; intros slots i j; [done|].
  intros Hsorted Hij Hi Hj Hf1 Hf2. simpl.
  destruct j as [|j]; [lia|]. simpl in Hj.
  destruct i as [|i]; simpl in Hi.
  - injection Hi as ->. rewrite Hf1. simpl.
    destruct (pop slots) as [[s slots']|] eqn:Hpop; [|done].
    apply pop_snoc in Hpop as ->. simpl. intros [= <-] Hs2.
    apply (assigned_slots_popped _ _ _ _ _ _ Hj Hf2) in Hs2.
    eapply StronglySorted_app_1_elem_of; [done|done|set_solver].
  - destruct (negb (truthy_slot (fixed !! k)));
      [destruct (pop slots) as [[s slots']|] eqn:Hpop; [|done]|]; simpl;
      intros Hs1 Hs2.
    + apply pop_snoc in Hpop as ->.
      apply StronglySorted_app_1_l in Hsorted.
      eapply (IH slots' i j); eauto with lia.
    + eapply (IH slots i j); eauto with lia.
Qed.

Lemma routine_slot_pair (R : relation Z) wst g cs i j k1 k2 ans1 ans2 :
  StronglySorted R (sort_reverse (values (ar_slots g))) →
  routine_groups portal wst = Return (Some g) →
  _apply_worksheet_template_routine_analyses portal wst = Return cs →
  sorted_ids (keys (ar_analyses g)) !! i = Some k1 →
  sorted_ids (keys (ar_analyses g)) !! j = Some k2 →
  (i < j)%nat →
  ar_analyses g !! k1 = Some ans1 → ar_analyses g !! k2 = Some ans2 →
  ar_fixed_slots g !! k1 = None → ar_fixed_slots g !! k2 = None →
  ∃ s1 s2, R s2 s1 ∧
    (∀ an, an ∈ ans1 →
       IRequestAnalysis_providedBy portal an = false ∨
       api_is_queue_enabled portal "task_assign_analyses" = false →
       AddAnalysis an (Some s1) ∈ cs) ∧
    (∀ an, an ∈ ans2 →
       IRequestAnalysis_providedBy portal an = false ∨
       api_is_queue_enabled portal "task_assign_analyses" = false →
       AddAnalysis an (Some s2) ∈ cs).
Proof.
  intros Hsorted Hog. destruct (routine_closed wst) as (og & Hog' & Hrun).
  rewrite Hog in Hog'. injection Hog' as <-. destruct Hrun as [-> Hlen].
  intros [= <-] Hi Hj Hij Hans1 Hans2 Hf1 Hf2.
  destruct (lookup_lt_is_Some_2
              (assigned_slots (ar_fixed_slots g)
                 (sorted_ids (keys (ar_analyses g)))
                 (sort_reverse (values (ar_slots g)))) i) as [s1 Hs1].
  { rewrite Hlen. by eapply lookup_lt_Some. }
  destruct (lookup_lt_is_Some_2
              (assigned_slots (ar_fixed_slots g)
                 (sorted_ids (keys (ar_analyses g)))
                 (sort_reverse (values (ar_slots g)))) j) as [s2 Hs2].
  { rewrite Hlen. by eapply lookup_lt_Some. }
  exists s1, s2. split_and!.
  - by eapply (assigned_slots_order R _ _ _ i j k1 k2).
  - intros an Han Hdirect. apply elem_of_flush_queue. left. simpl.
    apply elem_of_routine_adds. exists i, k1, s1, an.
    split_and!; try done. unfold group_of. by rewrite Hans1.
  - intros an Han Hdirect. apply elem_of_flush_queue. left. simpl.
    apply elem_of_routine_adds. exists j, k2, s2, an.
    split_and!; try done. unfold group_of. by rewrite Hans2.
Qed.

(** Requests without a slot of their own on the worksheet get the slots in
    the order of their ids: a request that comes later in the sorted ids is
    added at a slot that is not smaller. *)
Theorem routine_slots_ascending wst g cs i j k1 k2 ans1 ans2 :
  routine_groups portal wst = Return (Some g) →
  _apply_worksheet_template_routine_analyses portal wst = Return cs →
  sorted_ids (keys (ar_analyses g)) !! i = Some k1 →
  sorted_ids (keys (ar_analyses g)) !! j = Some k2 →
  (i < j)%nat →
  ar_analyses g !! k1 = Some ans1 → ar_analyses g !! k2 = Some ans2 →
  ar_fixed_slots g !! k1 = None → ar_fixed_slots g !! k2 = None →
  ∃ s1 s2, s1 ≤ s2 ∧
    (∀ an, an ∈ ans1 →
       IRequestAnalysis_providedBy portal an = false ∨
       api_is_queue_enabled portal "task_assign_analyses" = false →
       AddAnalysis an (Some s1) ∈ cs) ∧
    (∀ an, an ∈ ans2 →
       IRequestAnalysis_providedBy portal an = false ∨
       api_is_queue_enabled portal "task_assign_analyses" = false →
       AddAnalysis an (Some s2) ∈ cs).
Proof.
  intros Hog Hrun Hi Hj Hij Hans1 Hans2 Hf1 Hf2.
  destruct (routine_slot_pair Z.ge wst g cs i j k1 k2 ans1 ans2)
    as (s1 & s2 & Hle & Hadd1 & Hadd2); try done.
  { apply sort_reverse_strongly. }
  exists s1, s2. split_and!; [lia|done|done].
Qed.

(** When the free slots of the template are pairwise different, two
    different requests without a slot of their own on the worksheet are
    added at different slots. *)
Theorem routine_slots_distinct wst g cs k1 k2 ans1 ans2 :
  NoDup (resolve_available_slots portal wst) →
  routine_groups portal wst = Return (Some g) →
  _apply_worksheet_template_routine_analyses portal wst = Return cs →
  k1 ≠ k2 →
  ar_analyses g !! k1 = Some ans1 → ar_analyses g !! k2 = Some ans2 →
  ar_fixed_slots g !! k1 = None → ar_fixed_slots g !! k2 = None →
  ∃ s1 s2, s1 ≠ s2 ∧
    (∀ an, an ∈ ans1 →
       IRequestAnalysis_providedBy portal an = false ∨
       api_is_queue_enabled portal "task_assign_analyses" = false →
       AddAnalysis an (Some s1) ∈ cs) ∧
    (∀ an, an ∈ ans2 →
       IRequestAnalysis_providedBy portal an = false ∨
       api_is_queue_enabled portal "task_assign_analyses" = false →
       AddAnalysis an (Some s2) ∈ cs).
Proof.
  intros Hnodup Hog Hrun Hne Hans1 Hans2 Hf1 Hf2.
  assert (StronglySorted Z.gt (sort_reverse (values (ar_slots g)))) as Hsorted.
  { apply sort_reverse_strictly.
    apply routine_groups_slots in Hog.
    apply submseteq_Permutation in Hog as [rest Hperm].
    rewrite Hperm in Hnodup. by apply NoDup_app in Hnodup as [? _]. }
  assert (k1 ∈ sorted_ids (keys (ar_analyses g))) as [i Hi]%list_elem_of_lookup_1
    by (apply elem_of_sorted_keys; by eauto).
  assert (k2 ∈ sorted_ids (keys (ar_analyses g))) as [j Hj]%list_elem_of_lookup_1
    by (apply elem_of_sorted_keys; by eauto).
  destruct (Nat.lt_total i j) as [Hij|[->|Hji]].
  - destruct (routine_slot_pair Z.gt wst g cs i j k1 k2 ans1 ans2)
      as (s1 & s2 & Hgt & Hadd1 & Hadd2); try done.
    exists s1, s2. split_and!; [lia|done|done].
  - congruence.
  - destruct (routine_slot_pair Z.gt wst g cs j i k2 k1 ans2 ans1)
      as (s2 & s1 & Hgt & Hadd2 & Hadd1); try done.
    exists s1, s2. split_and!; [lia|done|done].
Qed.

End worksheet_routine.

Example routine_groups_sample :
  Worksheet.routine_groups (Sample.portal Sample.catalog false) Sample.wst
  = Return (Some Sample.groups).
Proof. vm_compute. reflexivity. Qed.

Lemma routine_submission_last_witness :
  ["a1"; "a2"] ≠ [] ∧ Some Sample.wst = Some Sample.wst ∧
  length [Worksheet.AddAnalysis "c1" (Some 2);
          Worksheet.QueueAssignAnalyses ["a1"; "a2"] (Some Sample.wst)]
  = 2%nat.
Proof.
  apply (routine_submission_last (Sample.portal Sample.catalog true)
           Sample.wst _ 1 ["a1"; "a2"] (Some Sample.wst)).
  - vm_compute. reflexivity.
  - reflexivity.
Defined.

Lemma routine_handles_allowed_witness :
  ∃ brain, brain ∈ Sample.catalog ∧ brain = "a2" ∧
    bool_decide (brain = "b1") = false ∧
    (false = true → true = true) ∧ (false = true → true = true).
Proof.
  apply (routine_handles_allowed (Sample.portal Sample.catalog true)
           Sample.wst
           [Worksheet.AddAnalysis "c1" (Some 2);
            Worksheet.QueueAssignAnalyses ["a1"; "a2"] (Some Sample.wst)]
           "a2").
  - vm_compute. reflexivity.
  - apply (bool_decide_unpack _). vm_compute. exact I.
Defined.

Lemma routine_without_slots_witness :
  Worksheet._apply_worksheet_template_routine_analyses
    {| Worksheet.bac := λ _, Sample.catalog;
       Worksheet.api_is_queued := λ _, false;
       Worksheet.api_is_queue_enabled := λ _, false;
       Worksheet.get_object := λ b : string, b;
       Worksheet.getRequestID := λ b, String.substring 0 1 b;
       Worksheet.isInstrumentAllowed := λ _ _, true;
       Worksheet.isMethodAllowed := λ _ _, true;
       Worksheet.IRequestAnalysis_providedBy := λ _, true;
       Worksheet.resolve_available_slots := λ _, [];
       Worksheet.get_routine_analyses := [];
       Worksheet.get_slot_position := λ _, Some 4 |}
    Sample.wst = Return [].
Proof.
  apply (routine_without_slots
           {| Worksheet.bac := λ _, Sample.catalog;
              Worksheet.api_is_queued := λ _, false;
              Worksheet.api_is_queue_enabled := λ _, false;
              Worksheet.get_object := λ b : string, b;
              Worksheet.getRequestID := λ b, String.substring 0 1 b;
              Worksheet.isInstrumentAllowed := λ _ _, true;
              Worksheet.isMethodAllowed := λ _ _, true;
              Worksheet.IRequestAnalysis_providedBy := λ _, true;
              Worksheet.resolve_available_slots := λ _, [];
              Worksheet.get_routine_analyses := [];
              Worksheet.get_slot_position := λ _, Some 4 |}
           Sample.wst); reflexivity.
Defined.

Lemma routine_submission_order_witness :
  true = true ∧
  ["a1"; "a2"]
  = concat ((λ ar_id,
               filter (λ an, negb (bool_decide (an = "c1")) = true)
                      (group_of Sample.groups ar_id))
            <$> Worksheet.sorted_ids
                  (Worksheet.keys (Worksheet.ar_analyses Sample.groups))).
Proof.
  apply (routine_submission_order (Sample.portal Sample.catalog true)
           Sample.wst Sample.groups
           [Worksheet.AddAnalysis "c1" (Some 2);
            Worksheet.QueueAssignAnalyses ["a1"; "a2"] (Some Sample.wst)]
           ["a1"; "a2"] (Some Sample.wst)).
  - vm_compute. reflexivity.
  - vm_compute. reflexivity.
  - apply list_elem_of_lookup_2 with 1%nat. reflexivity.
Defined.

Lemma routine_request_one_slot_witness :
  ∃ slot,
    (∀ z, (∅ : gmap string Z) !! "a" = Some z → slot = z) ∧
    (∀ an, an ∈ ["a1"; "a2"] →
       negb (bool_decide (an = "c1")) = false ∨ false = false →
       Worksheet.AddAnalysis an (Some slot)
       ∈ [Worksheet.AddAnalysis "a1" (Some 1);
          Worksheet.AddAnalysis "a2" (Some 1);
          Worksheet.AddAnalysis "c1" (Some 2)]).
Proof.
  apply (routine_request_one_slot (Sample.portal Sample.catalog false)
           Sample.wst Sample.groups _ "a" ["a1"; "a2"]).
  - vm_compute. reflexivity.
  - vm_compute. reflexivity.
  - vm_compute. reflexivity.
Defined.

Lemma routine_slots_from_template_witness :
  ∃ slot, Some 2 = Some slot ∧
    (slot ∈ [1; 2; 3] ∨
     ∃ brain, brain ∈ Sample.catalog ∧ (None : option Z) = Some slot).
Proof.
  apply (routine_slots_from_template (Sample.portal Sample.catalog false)
           Sample.wst
           [Worksheet.AddAnalysis "a1" (Some 1);
            Worksheet.AddAnalysis "a2" (Some 1);
            Worksheet.AddAnalysis "c1" (Some 2)]
           "c1" (Some 2)).
  - vm_compute. reflexivity.
  - apply list_elem_of_lookup_2 with 2%nat. reflexivity.
Defined.

Lemma routine_each_at_most_once_witness :
  ["a1"; "a2"; "c1"] ⊆+ ["a1"; "b1"; "a2"; "c1"].
Proof.
  apply (routine_each_at_most_once (Sample.portal Sample.catalog false)
           Sample.wst
           [Worksheet.AddAnalysis "a1" (Some 1);
            Worksheet.AddAnalysis "a2" (Some 1);
            Worksheet.AddAnalysis "c1" (Some 2)]).
  vm_compute. reflexivity.
Defined.

Lemma routine_slots_ascending_witness :
  ∃ s1 s2, s1 ≤ s2 ∧
    (∀ an, an ∈ ["a1"; "a2"] →
       negb (bool_decide (an = "c1")) = false ∨ false = false →
       Worksheet.AddAnalysis an (Some s1)
       ∈ [Worksheet.AddAnalysis "a1" (Some 1);
          Worksheet.AddAnalysis "a2" (Some 1);
          Worksheet.AddAnalysis "c1" (Some 2)]) ∧
    (∀ an, an ∈ ["c1"] →
       negb (bool_decide (an = "c1")) = false ∨ false = false →
       Worksheet.AddAnalysis an (Some s2)
       ∈ [Worksheet.AddAnalysis "a1" (Some 1);
          Worksheet.AddAnalysis "a2" (Some 1);
          Worksheet.AddAnalysis "c1" (Some 2)]).
Proof.
  apply (routine_slots_ascending (Sample.portal Sample.catalog false)
           Sample.wst Sample.groups _ 0 1 "a" "c" ["a1"; "a2"] ["c1"]).
  - vm_compute. reflexivity.
  - vm_compute. reflexivity.
  - vm_compute. reflexivity.
  - vm_compute. reflexivity.
  - lia.
  - vm_compute. reflexivity.
  - vm_compute. reflexivity.
  - vm_compute. reflexivity.
  - vm_compute. reflexivity.
Defined.

Lemma routine_slots_distinct_witness :
  ∃ s1 s2, s1 ≠ s2 ∧
    (∀ an, an ∈ ["a1"; "a2"] →
       negb (bool_decide (an = "c1")) = false ∨ false = false →
       Worksheet.AddAnalysis an (Some s1)
       ∈ [Worksheet.AddAnalysis "a1" (Some 1);
          Worksheet.AddAnalysis "a2" (Some 1);
          Worksheet.AddAnalysis "c1" (Some 2)]) ∧
    (∀ an, an ∈ ["c1"] →
       negb (bool_decide (an = "c1")) = false ∨ false = false →
       Worksheet.AddAnalysis an (Some s2)
       ∈ [Worksheet.AddAnalysis "a1" (Some 1);
          Worksheet.AddAnalysis "a2" (Some 1);
          Worksheet.AddAnalysis "c1" (Some 2)]).
Proof.
  apply (routine_slots_distinct (Sample.portal Sample.catalog false)
           Sample.wst Sample.groups _ "a" "c" ["a1"; "a2"] ["c1"]).
  - apply (bool_decide_unpack _). vm_compute. exact I.
  - vm_compute. reflexivity.
  - vm_compute. reflexivity.
  - discriminate.
  - vm_compute. reflexivity.
  - vm_compute. reflexivity.
  - vm_compute. reflexivity.
  - vm_compute. reflexivity.
Defined.
